(** * ursa_node: parameter resolution and start-up sequence of the URSA node

    A shallow embedding of [src/ursa_node.cpp]: the file-scope variables
    become a record that is threaded through the statements, the calls the
    node makes on its collaborators (the ROS parameter server, the ROS log,
    the [ursa::Interface] driver) are recorded as a trace of events, and a
    [return] inside a function body cuts the rest of the body short. *)

From Stdlib Require Import ZArith List String Ascii.
From Stdlib Require Import Floats.SpecFloat.
Import ListNotations.

Open Scope string_scope.
Open Scope Z_scope.

(** ** IEEE 754 binary64, the C++ [double] *)

Definition double : Type := spec_float.

Module Double.

Definition prec : Z := 53.
Definition emax : Z := 1024.

(** The double nearest to [m * 2^e]. *)
Definition of_scaled (m e : Z) : double :=
  binary_normalize prec emax m e false.

Definition of_Z (m : Z) : double := of_scaled m 0.

(** [operator<] and [operator==] on doubles. *)
Definition ltb (x y : double) : bool := SFltb x y.
Definition eqb (x y : double) : bool := SFeqb x y.

Definition is_nan (x : double) : bool :=
  match x with S754_nan => true | _ => false end.

(** The floating-point division, used to write decimal literals. *)
Definition div (x y : double) : double := SFdiv prec emax x y.

End Double.

(** ** The enumerations of the driver

    Modelled from the spec: the enumerated device codes of
    [ursa_driver/ursa_driver.h], a header that is not among the sources.
    The enumerators are the ones [ursa_node.cpp] names; which of them has
    the value 0 is left open (see [shaping_time_0] and [inputs_0]). *)

Module ursa.

Inductive shaping_time : Type :=
| TIME0_25uS | TIME0_5uS | TIME1uS | TIME2uS
| TIME4uS | TIME6uS | TIME8uS | TIME10uS.

Inductive inputs : Type :=
| INPUT1NEG | INPUT1POS | INPUT2NEG | INPUTXPOS.

End ursa.

(** ** [std::map<K, V>] ordered by [std::less<K>]

    The map is the list of its entries in iteration order (ascending keys). *)

Module StdMap.

Class Less (K : Type) : Type := less : K -> K -> bool.

Definition t (K V : Type) : Type := list (K * V).

Section Ops.
Context {K V : Type} `{Less K}.

(** The entries from the first one whose key is not less than [k]. *)
Fixpoint lower_bound (m : t K V) (k : K) : t K V :=
  match m with
  | [] => []
  | (k', v) :: rest => if less k' k then lower_bound rest k else m
  end.

(** [m.find(k)]; [None] is [m.end()]. *)
Definition find (m : t K V) (k : K) : option (K * V) :=
  match lower_bound m k with
  | [] => None
  | (k', v) :: _ => if less k k' then None else Some (k', v)
  end.

(** [m[k] = v]. *)
Fixpoint assign (m : t K V) (k : K) (v : V) : t K V :=
  match m with
  | [] => [(k, v)]
  | (k', v') :: rest =>
      if less k' k then (k', v') :: assign rest k v
      else if less k k' then (k, v) :: m
      else (k', v) :: rest
  end.

(** [m[k]] read as a value: an absent key is first inserted with the
    value-initialised element [v0]. *)
Definition index (v0 : V) (m : t K V) (k : K) : V * t K V :=
  match find m k with
  | Some (_, v) => (v, m)
  | None => (v0, assign m k v0)
  end.

Definition keys (m : t K V) : list K := List.map fst m.

End Ops.

End StdMap.

#[global] Instance less_double : StdMap.Less double := Double.ltb.

(** [std::string::operator<]: lexicographic on the bytes. *)
#[global] Instance less_string : StdMap.Less string :=
  fun a b => match String.compare a b with Lt => true | _ => false end.

(** ** The node's observable actions *)

Inductive Event : Type :=
| GetParam (key : string)
| RosError (msg : string)
| RosInfo (msg : string)
| NewInterface (port : string) (baud : Z)
| Connect
| Connected (up : bool)
| Advertise (topic : string)
| AdvertiseService (name : string)
| CreateTimer
| LoadPrevSettings
| SetGain (v : double)
| SetThresholdOffset (v : Z)
| SetShapingTime (c : ursa.shaping_time)
| SetInput (c : ursa.inputs)
| SetRamp (v : Z)
| SetVoltage (v : Z)
| StartGM
| StartAcquire
| StopAcquire
| TimerStart
| Spin.

(** ** The file-scope variables (lines 34-52) *)

Record Globals : Type := {
  baud : Z;
  port : string;
  detector_frame : string;
  HV : Z;
  gain : double;
  threshold : Z;
  shaping_time : double;
  real_shaping_time : ursa.shaping_time;
  input_polarity : string;
  real_input : ursa.inputs;
  ramp : Z;
  shape_map : StdMap.t double ursa.shaping_time;
  input_map : StdMap.t string ursa.inputs;
  load_prev : bool;
  GMmode : bool;
  imeadiate : bool
}.

Definition set_baud (v : Z) (g : Globals) : Globals :=
  {| baud := v; port := port g; detector_frame := detector_frame g;
     HV := HV g; gain := gain g; threshold := threshold g;
     shaping_time := shaping_time g;
     real_shaping_time := real_shaping_time g;
     input_polarity := input_polarity g; real_input := real_input g;
     ramp := ramp g; shape_map := shape_map g; input_map := input_map g;
     load_prev := load_prev g; GMmode := GMmode g;
     imeadiate := imeadiate g |}.

Definition set_port (v : string) (g : Globals) : Globals :=
  {| baud := baud g; port := v; detector_frame := detector_frame g;
     HV := HV g; gain := gain g; threshold := threshold g;
     shaping_time := shaping_time g;
     real_shaping_time := real_shaping_time g;
     input_polarity := input_polarity g; real_input := real_input g;
     ramp := ramp g; shape_map := shape_map g; input_map := input_map g;
     load_prev := load_prev g; GMmode := GMmode g;
     imeadiate := imeadiate g |}.

Definition set_detector_frame (v : string) (g : Globals) : Globals :=
  {| baud := baud g; port := port g; detector_frame := v; HV := HV g;
     gain := gain g; threshold := threshold g;
     shaping_time := shaping_time g;
     real_shaping_time := real_shaping_time g;
     input_polarity := input_polarity g; real_input := real_input g;
     ramp := ramp g; shape_map := shape_map g; input_map := input_map g;
     load_prev := load_prev g; GMmode := GMmode g;
     imeadiate := imeadiate g |}.

Definition set_HV (v : Z) (g : Globals) : Globals :=
  {| baud := baud g; port := port g; detector_frame := detector_frame g;
     HV := v; gain := gain g; threshold := threshold g;
     shaping_time := shaping_time g;
     real_shaping_time := real_shaping_time g;
     input_polarity := input_polarity g; real_input := real_input g;
     ramp := ramp g; shape_map := shape_map g; input_map := input_map g;
     load_prev := load_prev g; GMmode := GMmode g;
     imeadiate := imeadiate g |}.

Definition set_gain (v : double) (g : Globals) : Globals :=
  {| baud := baud g; port := port g; detector_frame := detector_frame g;
     HV := HV g; gain := v; threshold := threshold g;
     shaping_time := shaping_time g;
     real_shaping_time := real_shaping_time g;
     input_polarity := input_polarity g; real_input := real_input g;
     ramp := ramp g; shape_map := shape_map g; input_map := input_map g;
     load_prev := load_prev g; GMmode := GMmode g;
     imeadiate := imeadiate g |}.

Definition set_threshold (v : Z) (g : Globals) : Globals :=
  {| baud := baud g; port := port g; detector_frame := detector_frame g;
     HV := HV g; gain := gain g; threshold := v;
     shaping_time := shaping_time g;
     real_shaping_time := real_shaping_time g;
     input_polarity := input_polarity g; real_input := real_input g;
     ramp := ramp g; shape_map := shape_map g; input_map := input_map g;
     load_prev := load_prev g; GMmode := GMmode g;
     imeadiate := imeadiate g |}.

Definition set_shaping_time (v : double) (g : Globals) : Globals :=
  {| baud := baud g; port := port g; detector_frame := detector_frame g;
     HV := HV g; gain := gain g; threshold := threshold g; shaping_time := v;
     real_shaping_time := real_shaping_time g;
     input_polarity := input_polarity g; real_input := real_input g;
     ramp := ramp g; shape_map := shape_map g; input_map := input_map g;
     load_prev := load_prev g; GMmode := GMmode g;
     imeadiate := imeadiate g |}.

Definition set_real_shaping_time (v : ursa.shaping_time) (g : Globals) : Globals :=
  {| baud := baud g; port := port g; detector_frame := detector_frame g;
     HV := HV g; gain := gain g; threshold := threshold g;
     shaping_time := shaping_time g; real_shaping_time := v;
     input_polarity := input_polarity g; real_input := real_input g;
     ramp := ramp g; shape_map := shape_map g; input_map := input_map g;
     load_prev := load_prev g; GMmode := GMmode g;
     imeadiate := imeadiate g |}.

Definition set_input_polarity (v : string) (g : Globals) : Globals :=
  {| baud := baud g; port := port g; detector_frame := detector_frame g;
     HV := HV g; gain := gain g; threshold := threshold g;
     shaping_time := shaping_time g;
     real_shaping_time := real_shaping_time g; input_polarity := v;
     real_input := real_input g; ramp := ramp g; shape_map := shape_map g;
     input_map := input_map g; load_prev := load_prev g; GMmode := GMmode g;
     imeadiate := imeadiate g |}.

Definition set_real_input (v : ursa.inputs) (g : Globals) : Globals :=
  {| baud := baud g; port := port g; detector_frame := detector_frame g;
     HV := HV g; gain := gain g; threshold := threshold g;
     shaping_time := shaping_time g;
     real_shaping_time := real_shaping_time g;
     input_polarity := input_polarity g; real_input := v; ramp := ramp g;
     shape_map := shape_map g; input_map := input_map g;
     load_prev := load_prev g; GMmode := GMmode g;
     imeadiate := imeadiate g |}.

Definition set_ramp (v : Z) (g : Globals) : Globals :=
  {| baud := baud g; port := port g; detector_frame := detector_frame g;
     HV := HV g; gain := gain g; threshold := threshold g;
     shaping_time := shaping_time g;
     real_shaping_time := real_shaping_time g;
     input_polarity := input_polarity g; real_input := real_input g;
     ramp := v; shape_map := shape_map g; input_map := input_map g;
     load_prev := load_prev g; GMmode := GMmode g;
     imeadiate := imeadiate g |}.

Definition set_shape_map (v : StdMap.t double ursa.shaping_time) (g : Globals) : Globals :=
  {| baud := baud g; port := port g; detector_frame := detector_frame g;
     HV := HV g; gain := gain g; threshold := threshold g;
     shaping_time := shaping_time g;
     real_shaping_time := real_shaping_time g;
     input_polarity := input_polarity g; real_input := real_input g;
     ramp := ramp g; shape_map := v; input_map := input_map g;
     load_prev := load_prev g; GMmode := GMmode g;
     imeadiate := imeadiate g |}.

Definition set_input_map (v : StdMap.t string ursa.inputs) (g : Globals) : Globals :=
  {| baud := baud g; port := port g; detector_frame := detector_frame g;
     HV := HV g; gain := gain g; threshold := threshold g;
     shaping_time := shaping_time g;
     real_shaping_time := real_shaping_time g;
     input_polarity := input_polarity g; real_input := real_input g;
     ramp := ramp g; shape_map := shape_map g; input_map := v;
     load_prev := load_prev g; GMmode := GMmode g;
     imeadiate := imeadiate g |}.

Definition set_load_prev (v : bool) (g : Globals) : Globals :=
  {| baud := baud g; port := port g; detector_frame := detector_frame g;
     HV := HV g; gain := gain g; threshold := threshold g;
     shaping_time := shaping_time g;
     real_shaping_time := real_shaping_time g;
     input_polarity := input_polarity g; real_input := real_input g;
     ramp := ramp g; shape_map := shape_map g; input_map := input_map g;
     load_prev := v; GMmode := GMmode g; imeadiate := imeadiate g |}.

Definition set_GMmode (v : bool) (g : Globals) : Globals :=
  {| baud := baud g; port := port g; detector_frame := detector_frame g;
     HV := HV g; gain := gain g; threshold := threshold g;
     shaping_time := shaping_time g;
     real_shaping_time := real_shaping_time g;
     input_polarity := input_polarity g; real_input := real_input g;
     ramp := ramp g; shape_map := shape_map g; input_map := input_map g;
     load_prev := load_prev g; GMmode := v; imeadiate := imeadiate g |}.

Definition set_imeadiate (v : bool) (g : Globals) : Globals :=
  {| baud := baud g; port := port g; detector_frame := detector_frame g;
     HV := HV g; gain := gain g; threshold := threshold g;
     shaping_time := shaping_time g;
     real_shaping_time := real_shaping_time g;
     input_polarity := input_polarity g; real_input := real_input g;
     ramp := ramp g; shape_map := shape_map g; input_map := input_map g;
     load_prev := load_prev g; GMmode := GMmode g; imeadiate := v |}.

(** ** The parameter server seen through [ros::NodeHandle]

    roscpp is an external library: a handle is the family of its typed
    look-ups.  [None] is the case in which [getParam] returns [false]. *)

Record NodeHandle : Type := {
  lookup_bool : string -> option bool;
  lookup_int : string -> option Z;
  lookup_double : string -> option double;
  lookup_string : string -> option string
}.

(** ** Statements: state passing, a trace, and early [return] *)

Inductive Step (A : Type) : Type :=
| Next (a : A)
| Return (r : Z).

Arguments Next {A} a.
Arguments Return {A} r.

Definition M (A : Type) : Type := Globals -> Step A * Globals * list Event.

Definition bind {A B : Type} (m : M A) (k : A -> M B) : M B :=
  fun g =>
    match m g with
    | (Next a, g1, t1) =>
        match k a g1 with
        | (s, g2, t2) => (s, g2, (t1 ++ t2)%list)
        end
    | (Return r, g1, t1) => (Return r, g1, t1)
    end.

Definition skip : M unit := fun g => (Next tt, g, []).

Definition ret {A : Type} (r : Z) : M A := fun g => (Return r, g, []).

Definition read {A : Type} (var : Globals -> A) : M A :=
  fun g => (Next (var g), g, []).

Definition write {A : Type} (set : A -> Globals -> Globals) (v : A) : M unit :=
  fun g => (Next tt, set v g, []).

Definition emit (e : Event) : M unit := fun g => (Next tt, g, [e]).

Declare Scope stmt_scope.
Delimit Scope stmt_scope with stmt.
Bind Scope stmt_scope with M.

Notation "x <- c ;; k" := (bind c (fun x => k))
  (at level 61, c at next level, right associativity) : stmt_scope.
Notation "c ;; k" := (bind c (fun _ => k))
  (at level 61, right associativity) : stmt_scope.

Open Scope stmt_scope.

Definition when (c : bool) (body : M unit) : M unit :=
  if c then body else skip.

(** A call of an [int] function whose every path ends in a [return]. *)
Definition call (body : M Empty_set) : M Z :=
  fun g =>
    match body g with
    | (Return r, g', t) => (Next r, g', t)
    | (Next a, _, _) => match a with end
    end.

(** The conversion of an [int] to [bool], and [operator!] on it. *)
Definition int_to_bool (z : Z) : bool := negb (z =? 0).
Definition lnot (z : Z) : bool := negb (int_to_bool z).

(** *** The roscpp calls the node uses *)

Definition ROS_ERROR (msg : string) : M unit := emit (RosError msg).
Definition ROS_INFO (msg : string) : M unit := emit (RosInfo msg).

(** [nh.getParam(key, var)]: [var] is assigned only when the look-up
    succeeds. *)
Definition getParam {A : Type} (lookup : string -> option A) (key : string)
    (set : A -> Globals -> Globals) : M bool :=
  fun g =>
    match lookup key with
    | Some v => (Next true, set v g, [GetParam key])
    | None => (Next false, g, [GetParam key])
    end.

Definition value_or {A : Type} (o : option A) (dflt : A) : A :=
  match o with Some v => v | None => dflt end.

(** [nh.param(key, var, dflt)]. *)
Definition param {A : Type} (lookup : string -> option A) (key : string)
    (set : A -> Globals -> Globals) (dflt : A) : M unit :=
  fun g => (Next tt, set (value_or (lookup key) dflt) g, [GetParam key]).

(** ** The program *)

Definition dquote : string := String "034"%char EmptyString.

Definition d0_25 : double := Double.of_scaled 1 (-2).
Definition d0_5 : double := Double.of_scaled 1 (-1).
Definition d1 : double := Double.of_Z 1.
Definition d2 : double := Double.of_Z 2.
Definition d4 : double := Double.of_Z 4.
Definition d6 : double := Double.of_Z 6.
Definition d8 : double := Double.of_Z 8.
Definition d10 : double := Double.of_Z 10.

Section Node.

(** What a zero-initialised object of each enumeration holds: the
    enumerator of value 0, which only the absent header fixes. *)
Variable shaping_time_0 : ursa.shaping_time.
Variable inputs_0 : ursa.inputs.

(** The variables at program start (static initialisation). *)
Definition globals_init : Globals :=
  {| baud := 0; port := ""; detector_frame := "";
     HV := 0; gain := S754_zero false; threshold := 0;
     shaping_time := d1; real_shaping_time := shaping_time_0;
     input_polarity := ""; real_input := inputs_0;
     ramp := 6; shape_map := []; input_map := [];
     load_prev := false; GMmode := false; imeadiate := false |}.

Definition shape_map_assign (k : double) (v : ursa.shaping_time) : M unit :=
  fun g => (Next tt, set_shape_map (StdMap.assign (shape_map g) k v) g, []).

Definition input_map_assign (k : string) (v : ursa.inputs) : M unit :=
  fun g => (Next tt, set_input_map (StdMap.assign (input_map g) k v) g, []).

(** [shape_map[k]] and [input_map[k]] read as values. *)
Definition shape_map_index (k : double) : M ursa.shaping_time :=
  fun g =>
    match StdMap.index shaping_time_0 (shape_map g) k with
    | (v, m) => (Next v, set_shape_map m g, [])
    end.

Definition input_map_index (k : string) : M ursa.inputs :=
  fun g =>
    match StdMap.index inputs_0 (input_map g) k with
    | (v, m) => (Next v, set_input_map m g, [])
    end.

Definition is_end {A : Type} (it : option A) : bool :=
  match it with None => true | Some _ => false end.

(** Lines 236-251. *)
Definition fill_maps : M unit :=
  shape_map_assign d0_25 ursa.TIME0_25uS ;;
  shape_map_assign d0_5 ursa.TIME0_5uS ;;
  shape_map_assign d1 ursa.TIME1uS ;;
  shape_map_assign d2 ursa.TIME2uS ;;
  shape_map_assign d4 ursa.TIME4uS ;;
  shape_map_assign d6 ursa.TIME6uS ;;
  shape_map_assign d8 ursa.TIME8uS ;;
  shape_map_assign d10 ursa.TIME10uS ;;
  input_map_assign "input1_negative" ursa.INPUT1NEG ;;
  input_map_assign "input1_positive" ursa.INPUT1POS ;;
  input_map_assign "input2_negative" ursa.INPUT2NEG ;;
  input_map_assign "input2_positive" ursa.INPUT1POS ;;
  input_map_assign "shaped_input" ursa.INPUTXPOS.

Definition msg_invalid_input : string :=
  "Input and polarity must be valid. Input as string in the format "
  ++ dquote ++ "intput1_negative" ++ dquote
  ++ " if using a pre-shaped positive input "
  ++ dquote ++ "shaped_input" ++ dquote ++ ".".

(** Lines 171-234. *)
Definition get_params_body (nh : NodeHandle) : M Empty_set :=
  param (lookup_bool nh) "load_previous_settings" set_load_prev false ;;
  lp <- read load_prev ;;
  when (negb lp) (
    ok <- getParam (lookup_int nh) "high_voltage" set_HV ;;
    when (negb ok) (ROS_ERROR "High voltage must be set." ;; ret (-1)) ;;
    ok <- getParam (lookup_double nh) "gain" set_gain ;;
    when (negb ok) (ROS_ERROR "Gain must be set." ;; ret (-1)) ;;
    ok <- getParam (lookup_int nh) "threshold" set_threshold ;;
    when (negb ok) (ROS_ERROR "Threshold must be set." ;; ret (-1)) ;;
    ok <- getParam (lookup_double nh) "shaping_time" set_shaping_time ;;
    when (negb ok) (ROS_ERROR "Shaping time must be set." ;; ret (-1)) ;;
    ok <- getParam (lookup_string nh) "input_and_polarity"
            set_input_polarity ;;
    when (negb ok)
      (ROS_ERROR "Input and Polartity must be set." ;; ret (-1)) ;;
    ok <- getParam (lookup_int nh) "ramping_time" set_ramp ;;
    when (negb ok) (ROS_ERROR "Ramping time must be set." ;; ret (-1)) ;;

    fill_maps ;;

    sm <- read shape_map ;;
    st <- read shaping_time ;;
    when (is_end (StdMap.find sm st))
      (ROS_ERROR
         "Shaping time must be valid. Input as double in microseconds." ;;
       ret (-1)) ;;

    im <- read input_map ;;
    ip <- read input_polarity ;;
    when (is_end (StdMap.find im ip))
      (ROS_ERROR msg_invalid_input ;; ret (-1)) ;;

    c <- shape_map_index st ;;
    write set_real_shaping_time c ;;
    c <- input_map_index ip ;;
    write set_real_input c
  ) ;;

  param (lookup_string nh) "port" set_port "/dev/ttyUSB0" ;;
  param (lookup_int nh) "baud" set_baud 115200 ;;

  param (lookup_bool nh) "use_GM_mode" set_GMmode false ;;
  param (lookup_bool nh) "imeadiate_mode" set_imeadiate false ;;
  param (lookup_string nh) "detector_frame" set_detector_frame "rad_link" ;;
  ret 1.

(** [get_params(nh)] run on the variables [g]: the value returned, the
    variables afterwards, and what was done meanwhile. *)
Definition get_params (nh : NodeHandle) (g : Globals)
  : Z * Globals * list Event :=
  match call (get_params_body nh) g with
  | (Next r, g', t) => (r, g', t)
  | (Return r, g', t) => (r, g', t)
  end.

(** Lines 68-121.  [link_up] is what [my_ursa->connected()] answers once
    [connect()] has been called. *)
Definition main_body (nh : NodeHandle) (link_up : bool) : M unit :=
  r <- call (get_params_body nh) ;;
  when (lnot r) (ret (-1)) ;;

  p <- read port ;;
  b <- read baud ;;
  emit (NewInterface p b) ;;
  emit Connect ;;
  emit (Connected link_up) ;;
  (if link_up then ROS_INFO "URSA Connected" else ret (-1)) ;;

  gm <- read GMmode ;;
  (if gm then emit (Advertise "counts") else emit (Advertise "spectra")) ;;

  emit (AdvertiseService "startAcquire") ;;
  emit (AdvertiseService "stopAcquire") ;;
  emit (AdvertiseService "clearSpectra") ;;
  emit CreateTimer ;;

  lp <- read load_prev ;;
  (if lp then
     emit LoadPrevSettings
   else
     v <- read gain ;; emit (SetGain v) ;;
     v <- read threshold ;; emit (SetThresholdOffset v) ;;
     v <- read real_shaping_time ;; emit (SetShapingTime v) ;;
     v <- read real_input ;; emit (SetInput v) ;;
     v <- read ramp ;; emit (SetRamp v) ;;
     v <- read HV ;; emit (SetVoltage v)) ;;

  im <- read imeadiate ;;
  when im (
    gm <- read GMmode ;;
    (if gm then emit StartGM else emit StartAcquire) ;;
    emit TimerStart
  ) ;;

  emit Spin ;;
  emit StopAcquire ;;
  emit (SetVoltage 0).

(** The exit status of the process, the variables at exit and the trace;
    falling off the end of [main] is [return 0]. *)
Definition main (nh : NodeHandle) (link_up : bool) (g : Globals)
  : Z * Globals * list Event :=
  match main_body nh link_up g with
  | (Next _, g', t) => (0, g', t)
  | (Return r, g', t) => (r, g', t)
  end.

(** ** Vocabulary of the properties *)

(** The messages logged with [ROS_ERROR], oldest first. *)
Definition errors (t : list Event) : list string :=
  flat_map (fun e => match e with RosError m => [m] | _ => [] end) t.

(** The calls of lines 95-107 on the driver. *)
Definition is_settings_call (e : Event) : bool :=
  match e with
  | LoadPrevSettings | SetGain _ | SetThresholdOffset _ | SetShapingTime _
  | SetInput _ | SetRamp _ | SetVoltage _ => true
  | _ => false
  end.

(** Anything done with the driver object. *)
Definition is_device_call (e : Event) : bool :=
  match e with
  | NewInterface _ _ | Connect | Connected _ | StartGM | StartAcquire
  | StopAcquire => true
  | _ => is_settings_call e
  end.

(** The part of a trace that precedes [ros::spin()]. *)
Fixpoint until_spin (t : list Event) : list Event :=
  match t with
  | [] => []
  | Spin :: _ => []
  | e :: rest => e :: until_spin rest
  end.

Definition settings_calls (t : list Event) : list Event :=
  filter is_settings_call (until_spin t).

(** The six values [main] hands to the driver when [load_prev] is off. *)
Definition settings_of (g : Globals)
  : Z * double * Z * ursa.shaping_time * ursa.inputs * Z :=
  (HV g, gain g, threshold g, real_shaping_time g, real_input g, ramp g).

(** The two tables [fill_maps] builds from empty maps. *)
Definition shape_table : StdMap.t double ursa.shaping_time :=
  [ (d0_25, ursa.TIME0_25uS); (d0_5, ursa.TIME0_5uS); (d1, ursa.TIME1uS);
    (d2, ursa.TIME2uS); (d4, ursa.TIME4uS); (d6, ursa.TIME6uS);
    (d8, ursa.TIME8uS); (d10, ursa.TIME10uS) ].

Definition input_table : StdMap.t string ursa.inputs :=
  [ ("input1_negative", ursa.INPUT1NEG); ("input1_positive", ursa.INPUT1POS);
    ("input2_negative", ursa.INPUT2NEG); ("input2_positive", ursa.INPUT1POS);
    ("shaped_input", ursa.INPUTXPOS) ].

(** The required fields, in the order [get_params] asks for them. *)
Inductive Field : Type :=
| HighVoltage | Gain | Threshold | ShapingTime | InputPolarity | Ramp.

Definition required_fields : list Field :=
  [HighVoltage; Gain; Threshold; ShapingTime; InputPolarity; Ramp].

Definition key_of (f : Field) : string :=
  match f with
  | HighVoltage => "high_voltage"
  | Gain => "gain"
  | Threshold => "threshold"
  | ShapingTime => "shaping_time"
  | InputPolarity => "input_and_polarity"
  | Ramp => "ramping_time"
  end.

Definition is_some {A : Type} (o : option A) : bool :=
  match o with Some _ => true | None => false end.

Definition present (nh : NodeHandle) (f : Field) : bool :=
  match f with
  | HighVoltage | Threshold | Ramp => is_some (lookup_int nh (key_of f))
  | Gain | ShapingTime => is_some (lookup_double nh (key_of f))
  | InputPolarity => is_some (lookup_string nh (key_of f))
  end.

(** The message that reports a missing field. *)
Definition missing_report (f : Field) : string :=
  match f with
  | HighVoltage => "High voltage must be set."
  | Gain => "Gain must be set."
  | Threshold => "Threshold must be set."
  | ShapingTime => "Shaping time must be set."
  | InputPolarity => "Input and Polartity must be set."
  | Ramp => "Ramping time must be set."
  end.

Definition msg_invalid_shaping : string :=
  "Shaping time must be valid. Input as double in microseconds.".

(** The variable a present field is read into. *)
Definition store (nh : NodeHandle) (g : Globals) (f : Field) : Globals :=
  match f with
  | HighVoltage => set_HV (value_or (lookup_int nh (key_of f)) (HV g)) g
  | Gain => set_gain (value_or (lookup_double nh (key_of f)) (gain g)) g
  | Threshold =>
      set_threshold (value_or (lookup_int nh (key_of f)) (threshold g)) g
  | ShapingTime =>
      set_shaping_time
        (value_or (lookup_double nh (key_of f)) (shaping_time g)) g
  | InputPolarity =>
      set_input_polarity
        (value_or (lookup_string nh (key_of f)) (input_polarity g)) g
  | Ramp => set_ramp (value_or (lookup_int nh (key_of f)) (ramp g)) g
  end.

(** Lines 227-232 as one update. *)
Definition common_params (nh : NodeHandle) (g : Globals) : Globals :=
  set_detector_frame (value_or (lookup_string nh "detector_frame") "rad_link")
    (set_imeadiate (value_or (lookup_bool nh "imeadiate_mode") false)
       (set_GMmode (value_or (lookup_bool nh "use_GM_mode") false)
          (set_baud (value_or (lookup_int nh "baud") 115200)
             (set_port (value_or (lookup_string nh "port") "/dev/ttyUSB0")
                g)))).

Definition common_reads : list Event :=
  [GetParam "port"; GetParam "baud"; GetParam "use_GM_mode";
   GetParam "imeadiate_mode"; GetParam "detector_frame"].

Definition explicit_reads : list Event :=
  GetParam "load_previous_settings"
    :: List.map (fun f => GetParam (key_of f)) required_fields.

(** The variables once the fields [fs] have been read, in order. *)
Definition stored (nh : NodeHandle) (fs : list Field) (g : Globals)
  : Globals :=
  fold_left (store nh) fs (set_load_prev false g).

(** A statement is disciplined when it logs an error exactly on the
    paths that return -1, and otherwise either goes on or returns 1. *)
Definition disciplined {A : Type} (m : M A) : Prop :=
  forall g,
    match m g with
    | (Next _, _, t) => errors t = []
    | (Return r, _, t) =>
        (r = -1 /\ errors t <> []) \/ (r = 1 /\ errors t = [])
    end.

(** What [main] does after line 73, as a function of the variables
    [get_params] left. *)
Definition apply_settings (g : Globals) : list Event :=
  if load_prev g then [LoadPrevSettings]
  else [SetGain (gain g); SetThresholdOffset (threshold g);
        SetShapingTime (real_shaping_time g); SetInput (real_input g);
        SetRamp (ramp g); SetVoltage (HV g)].

Definition start_acquisition (g : Globals) : list Event :=
  if imeadiate g
  then [if GMmode g then StartGM else StartAcquire; TimerStart]
  else [].

Definition after_connect (g : Globals) : list Event :=
  ([RosInfo "URSA Connected";
    Advertise (if GMmode g then "counts" else "spectra");
    AdvertiseService "startAcquire"; AdvertiseService "stopAcquire";
    AdvertiseService "clearSpectra"; CreateTimer]
   ++ apply_settings g ++ start_acquisition g
   ++ [Spin; StopAcquire; SetVoltage 0])%list.

Definition host_trace (link_up : bool) (g : Globals) : list Event :=
  NewInterface (port g) (baud g) :: Connect :: Connected link_up
    :: (if link_up then after_connect g else []).


(** Parameter servers to run the node on. *)
Definition nh_empty : NodeHandle :=
  {| lookup_bool := fun _ => None; lookup_int := fun _ => None;
     lookup_double := fun _ => None; lookup_string := fun _ => None |}.

Definition with_bool (key : string) (v : bool) (nh : NodeHandle)
  : NodeHandle :=
  {| lookup_bool := fun k => if String.eqb k key then Some v
                             else lookup_bool nh k;
     lookup_int := lookup_int nh; lookup_double := lookup_double nh;
     lookup_string := lookup_string nh |}.

Definition with_int (key : string) (v : Z) (nh : NodeHandle) : NodeHandle :=
  {| lookup_bool := lookup_bool nh;
     lookup_int := fun k => if String.eqb k key then Some v
                            else lookup_int nh k;
     lookup_double := lookup_double nh; lookup_string := lookup_string nh |}.

Definition with_double (key : string) (v : double) (nh : NodeHandle)
  : NodeHandle :=
  {| lookup_bool := lookup_bool nh; lookup_int := lookup_int nh;
     lookup_double := fun k => if String.eqb k key then Some v
                               else lookup_double nh k;
     lookup_string := lookup_string nh |}.

Definition with_string (key : string) (v : string) (nh : NodeHandle)
  : NodeHandle :=
  {| lookup_bool := lookup_bool nh; lookup_int := lookup_int nh;
     lookup_double := lookup_double nh;
     lookup_string := fun k => if String.eqb k key then Some v
                               else lookup_string nh k |}.

(** high_voltage 500, gain 2, threshold 10, ramping_time 6, and the given
    shaping time and input. *)
Definition nh_explicit (st : double) (ip : string) : NodeHandle :=
  with_int "high_voltage" 500
    (with_double "gain" d2
       (with_int "threshold" 10
          (with_double "shaping_time" st
             (with_string "input_and_polarity" ip
                (with_int "ramping_time" 6 nh_empty))))).

(** Only load_previous_settings, set to true. *)
Definition nh_load_prev : NodeHandle :=
  with_bool "load_previous_settings" true nh_empty.

(** Only high_voltage 500. *)
Definition nh_high_voltage_only : NodeHandle :=
  with_int "high_voltage" 500 nh_empty.

(** Only high_voltage 500 and gain 2. *)
Definition nh_two_fields : NodeHandle :=
  with_double "gain" d2 nh_high_voltage_only.

Definition d3 : double := Double.of_Z 3.
Definition d12 : double := Double.of_Z 12.
Definition d0_1 : double := Double.div d1 d10.
(** The double that follows 1. *)
Definition d1_next : double := S754_finite false 4503599627370497 (-52).


(** The variable of a required field is in [g'] as it was in [g]. *)
Definition kept (g g' : Globals) (f : Field) : Prop :=
  match f with
  | HighVoltage => HV g' = HV g
  | Gain => gain g' = gain g
  | Threshold => threshold g' = threshold g
  | ShapingTime => shaping_time g' = shaping_time g
  | InputPolarity => input_polarity g' = input_polarity g
  | Ramp => ramp g' = ramp g
  end.

(** The six variables the required fields are read into, and the two
    codes looked up from them. *)
Definition raw_of (g : Globals) : Z * double * Z * double * string * Z :=
  (HV g, gain g, threshold g, shaping_time g, input_polarity g, ramp g).



(** ** The callbacks (lines 123-169)

    The callbacks read the variables and never assign them.  What they do
    is a list of actions: the ones [main] also performs, and those only a
    callback performs. *)

(** The header and the two messages the node publishes.  Modelled from the
    spec: [ursa_driver/ursa_counts.h] and [ursa_driver/ursa_spectra.h] are
    generated headers that are not among the sources; the fields are the
    ones [timerCallback] assigns. *)
Record Header : Type := { stamp : Z; frame_id : string }.

Inductive Message : Type :=
| ursa_counts (header : Header) (counts : Z)
| ursa_spectra (header : Header) (bins : list Z).

Inductive Action : Type :=
| Host (e : Event)
| TimerStop
| StopGM
| ClearSpectra
| RosDebug (msg : string)
| TimeNow
| RequestCounts
| DeviceRead
| GetSpectra
| Publish (m : Message).

(** What the outside answers during one tick: [ros::Time::now()],
    [requestCounts()], and the bins [getSpectra] leaves in the vector. *)
Record Answers : Type := {
  time_now : Z;
  device_counts : Z;
  device_bins : list Z
}.

Definition CB (A : Type) : Type := Globals -> A * list Action.

Definition cb_bind {A B : Type} (m : CB A) (k : A -> CB B) : CB B :=
  fun g =>
    match m g with
    | (a, t1) => match k a g with (b, t2) => (b, (t1 ++ t2)%list) end
    end.

Definition done {A : Type} (a : A) : CB A := fun _ => (a, []).
Definition look {A : Type} (var : Globals -> A) : CB A :=
  fun g => (var g, []).
Definition act (a : Action) : CB unit := fun _ => (tt, [a]).
Definition ask {A : Type} (a : Action) (answer : A) : CB A :=
  fun _ => (answer, [a]).

Declare Scope cb_scope.
Delimit Scope cb_scope with cb.

Notation "x <- c ;; k" := (cb_bind c (fun x => k))
  (at level 61, c at next level, right associativity) : cb_scope.
Notation "c ;; k" := (cb_bind c (fun _ => k))
  (at level 61, right associativity) : cb_scope.

(** Lines 123-131. *)
Definition startAcquireCB : CB bool :=
  (gm <- look GMmode ;;
   (if gm then act (Host StartGM) else act (Host StartAcquire)) ;;
   act (Host TimerStart) ;;
   done true)%cb.

(** Lines 133-141. *)
Definition stopAcquireCB : CB bool :=
  (act TimerStop ;;
   gm <- look GMmode ;;
   (if gm then act StopGM else act (Host StopAcquire)) ;;
   done true)%cb.

(** Lines 143-147. *)
Definition clearSpectraCB : CB bool :=
  (act ClearSpectra ;;
   done true)%cb.

(** Lines 149-169. *)
Definition timerCallback (w : Answers) : CB unit :=
  (act (RosDebug "Hit timer callback.") ;;
   now <- ask TimeNow (time_now w) ;;
   gm <- look GMmode ;;
   if gm then
     frame <- look detector_frame ;;
     c <- ask RequestCounts (device_counts w) ;;
     act (Publish (ursa_counts {| stamp := now; frame_id := frame |} c))
   else
     frame <- look detector_frame ;;
     act DeviceRead ;;
     bins <- ask GetSpectra (device_bins w) ;;
     act (Publish (ursa_spectra {| stamp := now; frame_id := frame |} bins))
  )%cb.

(** What [ros::spin()] hands to the node, one at a time: a call of one of
    the three services, or a tick of the timer. *)
Inductive Request : Type :=
| CallStartAcquire
| CallStopAcquire
| CallClearSpectra
| Tick (w : Answers).

Definition serve (g : Globals) (r : Request) : list Action :=
  match r with
  | CallStartAcquire => snd (startAcquireCB g)
  | CallStopAcquire => snd (stopAcquireCB g)
  | CallClearSpectra => snd (clearSpectraCB g)
  | Tick w => snd (timerCallback w g)
  end.

Definition serve_all (g : Globals) (rs : list Request) : list Action :=
  flat_map (serve g) rs.

(** Whether the timer is started after the actions [t], given whether it
    was before: [createTimer] is called with autostart off. *)
Fixpoint timer_started (before : bool) (t : list Action) : bool :=
  match t with
  | [] => before
  | Host TimerStart :: rest => timer_started true rest
  | TimerStop :: rest => timer_started false rest
  | Host CreateTimer :: rest => timer_started false rest
  | _ :: rest => timer_started before rest
  end.

(** What the last start or stop request leaves the timer in. *)
Fixpoint last_command (before : bool) (rs : list Request) : bool :=
  match rs with
  | [] => before
  | CallStartAcquire :: rest => last_command true rest
  | CallStopAcquire :: rest => last_command false rest
  | _ :: rest => last_command before rest
  end.

Definition published (t : list Action) : list Message :=
  flat_map (fun a => match a with Publish m => [m] | _ => [] end) t.

Definition header_of (m : Message) : Header :=
  match m with ursa_counts h _ => h | ursa_spectra h _ => h end.

(** The topic a message type is advertised on at lines 82-85. *)
Definition topic_of (m : Message) : string :=
  match m with ursa_counts _ _ => "counts" | ursa_spectra _ _ => "spectra" end.

Definition advertised (t : list Event) : list string :=
  flat_map (fun e => match e with Advertise topic => [topic] | _ => [] end) t.

(** The message a tick is expected to produce. *)
Definition message_of_tick (g : Globals) (w : Answers) : Message :=
  let h := {| stamp := time_now w; frame_id := detector_frame g |} in
  if GMmode g then ursa_counts h (device_counts w)
  else ursa_spectra h (device_bins w).

Definition ticks (rs : list Request) : list Answers :=
  flat_map (fun r => match r with Tick w => [w] | _ => [] end) rs.

(** The driver calls of counting mode, and those of spectral mode. *)
Definition is_gm_call (a : Action) : bool :=
  match a with
  | Host StartGM | StopGM | RequestCounts => true
  | _ => false
  end.

Definition is_spectral_call (a : Action) : bool :=
  match a with
  | Host StartAcquire | Host StopAcquire | DeviceRead | GetSpectra => true
  | _ => false
  end.

Definition changes_settings (a : Action) : bool :=
  match a with
  | Host e => is_settings_call e
  | _ => false
  end.

(** The twelve parameters of the node, and the eight errors it reports. *)
Definition parameter_keys : list string :=
  ["load_previous_settings"; "high_voltage"; "gain"; "threshold";
   "shaping_time"; "input_and_polarity"; "ramping_time"; "port"; "baud";
   "use_GM_mode"; "imeadiate_mode"; "detector_frame"].

Definition error_messages : list string :=
  (List.map missing_report required_fields
   ++ [msg_invalid_shaping; msg_invalid_input])%list.

(** The shape of what a statement of [get_params] does: it reads
    parameters of the node, and the only other thing it may do is to log
    one known error as its last action, on the way to returning -1. *)
Definition reads_then_reports {A : Type} (m : M A) : Prop :=
  forall g,
    match m g with
    | (Next _, _, t) =>
        exists ks, t = List.map GetParam ks /\ incl ks parameter_keys
    | (Return r, _, t) =>
        exists ks,
          incl ks parameter_keys
          /\ ((r = 1 /\ t = List.map GetParam ks)
              \/ (r = -1
                  /\ exists msg, In msg error_messages
                                 /\ t = (List.map GetParam ks
                                         ++ [RosError msg])%list))
    end.

(** Two handles that answer alike on the twelve parameters. *)
Definition same_parameters (nh1 nh2 : NodeHandle) : Prop :=
  forall k, In k parameter_keys ->
    lookup_bool nh1 k = lookup_bool nh2 k
    /\ lookup_int nh1 k = lookup_int nh2 k
    /\ lookup_double nh1 k = lookup_double nh2 k
    /\ lookup_string nh1 k = lookup_string nh2 k.

(** The two maps between calls of [get_params]: as static initialisation
    leaves them, or as [fill_maps] leaves them. *)
Definition maps_at_rest (g : Globals) : Prop :=
  (shape_map g = [] /\ input_map g = [])
  \/ (shape_map g = shape_table /\ input_map g = input_table).

(** All six required fields read, and both tables in place. *)
Definition read_and_filled (nh : NodeHandle) (g : Globals) : Globals :=
  set_input_map input_table
    (set_shape_map shape_table (stored nh required_fields g)).

(** The variables after a run of [get_params] that returns 1 with
    [load_prev] off. *)
Definition resolved (nh : NodeHandle) (g : Globals)
    (c : ursa.shaping_time) (ci : ursa.inputs) : Globals :=
  common_params nh
    (set_real_input ci (set_real_shaping_time c (read_and_filled nh g))).

(** ** Facts about the containers and the key orders *)

Section StdMapFacts.
Context {K V : Type} `{StdMap.Less K}.

Lemma lower_bound_suffix (m : StdMap.t K V) (k : K) :
  exists skipped, m = (skipped ++ StdMap.lower_bound m k)%list
                  /\ Forall (fun e => StdMap.less (fst e) k = true) skipped.
Proof.
  induction m as [|[k' v] rest IH]; simpl.
  - exists []. split; [reflexivity | constructor].
  - destruct (StdMap.less k' k) eqn:E.
    + destruct IH as (sk & Hm & Hall).
      exists ((k', v) :: sk). split.
      * simpl. now rewrite <- Hm.
      * constructor; assumption.
    + exists []. split; [reflexivity | constructor].
Qed.

Lemma lower_bound_head (m : StdMap.t K V) (k k' : K) (v : V) rest :
  StdMap.lower_bound m k = (k', v) :: rest -> StdMap.less k' k = false.
Proof.
  induction m as [|[k0 v0] m IH]; simpl; [discriminate|].
  destruct (StdMap.less k0 k) eqn:E; [exact IH|].
  intros Heq. injection Heq as -> _ _. exact E.
Qed.

(** A key that is found is equivalent to the key it was asked for. *)
Lemma find_Some_inv (m : StdMap.t K V) (k k' : K) (v : V) :
  StdMap.find m k = Some (k', v) ->
  In (k', v) m /\ StdMap.less k' k = false /\ StdMap.less k k' = false.
Proof.
  unfold StdMap.find. intros Hf.
  destruct (StdMap.lower_bound m k) as [|[k0 v0] rest] eqn:Elb;
    [discriminate|].
  destruct (StdMap.less k k0) eqn:E; [discriminate|].
  injection Hf as -> ->.
  repeat split; trivial.
  - destruct (lower_bound_suffix m k) as (sk & Hm & _).
    rewrite Hm, Elb. apply in_or_app. right. now left.
  - eapply lower_bound_head; eassumption.
Qed.

Lemma find_None_intro (m : StdMap.t K V) (k : K) :
  (forall k' v, In (k', v) m ->
                StdMap.less k' k = false -> StdMap.less k k' = false ->
                False) ->
  StdMap.find m k = None.
Proof.
  intros Hno. destruct (StdMap.find m k) as [[k' v]|] eqn:E; [|reflexivity].
  apply find_Some_inv in E. destruct E as (Hin & H1 & H2).
  exfalso. eauto.
Qed.

Lemma index_found (v0 : V) (m : StdMap.t K V) (k k' : K) (v : V) :
  StdMap.find m k = Some (k', v) -> StdMap.index v0 m k = (v, m).
Proof. unfold StdMap.index. now intros ->. Qed.

End StdMapFacts.

(** [std::string]'s order is total: equivalent keys are equal. *)
Lemma less_string_equiv (a b : string) :
  StdMap.less a b = false -> StdMap.less b a = false -> a = b.
Proof.
  unfold StdMap.less, less_string. intros Hab Hba.
  apply String.compare_eq_iff.
  rewrite (String.compare_antisym b a) in Hba.
  destruct (String.compare a b); simpl in *; congruence.
Qed.

(** The comparison of doubles read from right to left. *)
Lemma SFcompare_swap (x y : double) :
  SFcompare y x = option_map CompOpp (SFcompare x y).
Proof.
  destruct x as [sx|sx| |sx mx ex], y as [sy|sy| |sy my ey]; simpl;
    try reflexivity;
    try (destruct sx; reflexivity); try (destruct sy; reflexivity);
    try (destruct sx, sy; reflexivity).
  pose proof (Pos.compare_cont_antisym mx my Eq) as Hm. simpl in Hm.
  destruct sx, sy; try reflexivity;
    rewrite (Z.compare_antisym ex ey);
    destruct (ex ?= ey); simpl; try reflexivity;
    now rewrite Hm.
Qed.

(** Two doubles, neither a NaN, neither less than the other, are equal
    as numbers. *)
Lemma double_equiv_eqb (x k : double) :
  Double.is_nan x = false -> Double.is_nan k = false ->
  StdMap.less k x = false -> StdMap.less x k = false ->
  Double.eqb x k = true.
Proof.
  unfold StdMap.less, less_double, Double.ltb, Double.eqb, SFltb, SFeqb.
  intros Hx Hk Hkx Hxk.
  rewrite (SFcompare_swap x k) in Hkx.
  destruct (SFcompare x k) as [[ | | ]|] eqn:E; simpl in *;
    try congruence.
  destruct x, k; simpl in *; discriminate.
Qed.

(** A NaN is equivalent to every key of a [std::map<double, _>]. *)
Lemma nan_never_less (k : double) :
  StdMap.less k S754_nan = false /\ StdMap.less S754_nan k = false.
Proof. destruct k; split; reflexivity. Qed.

(** ** The literals are the doubles they stand for *)

Lemma shape_keys_valid :
  forallb (valid_binary Double.prec Double.emax) (StdMap.keys shape_table)
  = true.
Proof. reflexivity. Qed.

Lemma shape_keys_values :
  d0_25 = Double.div d1 d4 /\ d0_5 = Double.div d1 d2
  /\ d2 = SFadd Double.prec Double.emax d1 d1
  /\ d4 = SFadd Double.prec Double.emax d2 d2
  /\ d6 = SFadd Double.prec Double.emax d4 d2
  /\ d8 = SFadd Double.prec Double.emax d4 d4
  /\ d10 = SFadd Double.prec Double.emax d8 d2.
Proof. repeat split; reflexivity. Qed.

(** ** Running [get_params] *)

Ltac expose_lookups :=
  unfold get_params, call, get_params_body,
    getParam, param.

Lemma call_get_params (nh : NodeHandle) (g : Globals) :
  call (get_params_body nh) g =
    (let '(r, g', t) := get_params nh g in (Next r, g', t)).
Proof.
  unfold get_params, call.
  destruct (get_params_body nh g) as [[[[]|r] g'] t]. reflexivity.
Qed.

Lemma fill_maps_from_empty (g : Globals) :
  shape_map g = [] -> input_map g = [] ->
  fill_maps g
    = (Next tt, set_input_map input_table (set_shape_map shape_table g), []).
Proof.
  destruct g; simpl; intros -> ->. reflexivity.
Qed.

(** With [load_previous_settings] on, only lines 172 and 227-233 run. *)
Lemma get_params_load_prev (nh : NodeHandle) (g : Globals) :
  lookup_bool nh "load_previous_settings" = Some true ->
  get_params nh g
    = (1, common_params nh (set_load_prev true g),
       GetParam "load_previous_settings" :: common_reads).
Proof.
  intros Hlp. expose_lookups. rewrite Hlp. destruct g. reflexivity.
Qed.

Lemma required_fields_split (pre post : list Field) (f : Field) :
  required_fields = (pre ++ f :: post)%list ->
  (pre = [] /\ f = HighVoltage)
  \/ (pre = [HighVoltage] /\ f = Gain)
  \/ (pre = [HighVoltage; Gain] /\ f = Threshold)
  \/ (pre = [HighVoltage; Gain; Threshold] /\ f = ShapingTime)
  \/ (pre = [HighVoltage; Gain; Threshold; ShapingTime]
      /\ f = InputPolarity)
  \/ (pre = [HighVoltage; Gain; Threshold; ShapingTime; InputPolarity]
      /\ f = Ramp).
Proof.
  unfold required_fields. intros Hsplit.
  do 6 (destruct pre as [|? pre];
        [ injection Hsplit as <-; intros; subst; tauto
        | injection Hsplit as <- Hsplit ]).
  destruct pre; discriminate.
Qed.

(** The first absent field ends the call: one message, nothing read after
    it, and the fields before it stored. *)
Lemma get_params_first_missing (nh : NodeHandle) (g : Globals)
    (pre post : list Field) (f : Field) :
  value_or (lookup_bool nh "load_previous_settings") false = false ->
  required_fields = (pre ++ f :: post)%list ->
  Forall (fun x => present nh x = true) pre ->
  present nh f = false ->
  get_params nh g
    = (-1, stored nh pre g,
       (GetParam "load_previous_settings"
          :: List.map (fun x => GetParam (key_of x)) pre
          ++ [GetParam (key_of f); RosError (missing_report f)])%list).
Proof.
  intros Hlp Hsplit Hpre Hf.
  destruct (required_fields_split _ _ _ Hsplit)
    as [[-> ->]|[[-> ->]|[[-> ->]|[[-> ->]|[[-> ->]|[-> ->]]]]]];
    repeat match goal with
           | H : Forall _ (_ :: _) |- _ => inversion_clear H
           | H : Forall _ [] |- _ => clear H
           end;
    cbn [present key_of] in *;
    expose_lookups; cbn [stored fold_left store key_of List.map app];
    repeat match goal with
           | H : is_some ?o = _ |- _ =>
               destruct o; simpl in H; try discriminate H; clear H
           end;
    rewrite Hlp; destruct g; reflexivity.
Qed.

(** With the six fields present, the outcome is decided by the two
    table look-ups, the shaping time first. *)
Lemma get_params_explicit (nh : NodeHandle) (g : Globals) :
  shape_map g = [] -> input_map g = [] ->
  value_or (lookup_bool nh "load_previous_settings") false = false ->
  Forall (fun x => present nh x = true) required_fields ->
  let g1 :=
    set_input_map input_table
      (set_shape_map shape_table (stored nh required_fields g)) in
  get_params nh g =
    match StdMap.find shape_table (shaping_time g1) with
    | None =>
        (-1, g1, (explicit_reads ++ [RosError msg_invalid_shaping])%list)
    | Some (_, c) =>
        match StdMap.find input_table (input_polarity g1) with
        | None =>
            (-1, g1, (explicit_reads ++ [RosError msg_invalid_input])%list)
        | Some (_, ci) =>
            (1,
             common_params nh
               (set_real_input ci (set_real_shaping_time c g1)),
             (explicit_reads ++ common_reads)%list)
        end
    end.
Proof.
  intros Hsm Him Hlp Hall.
  repeat match goal with
         | H : Forall _ (_ :: _) |- _ => inversion_clear H
         | H : Forall _ [] |- _ => clear H
         | H : Forall _ required_fields |- _ => unfold required_fields in H
         end.
  cbn [present key_of] in *.
  expose_lookups.
  cbn [stored required_fields fold_left store key_of List.map app].
  repeat match goal with
         | H : is_some ?o = _ |- _ =>
             destruct o; simpl in H; try discriminate H; clear H
         end.
  rewrite Hlp; destruct g; simpl in Hsm, Him; subst;
    cbv -[StdMap.find StdMap.index];
    (match goal with
     | |- context [StdMap.find ?m ?k] =>
         destruct (StdMap.find m k) as [[? c]|] eqn:E1
     end; cbv -[StdMap.find StdMap.index]; [|reflexivity]);
    (match goal with
     | |- context [StdMap.find ?m ?k] =>
         destruct (StdMap.find m k) as [[? ci]|] eqn:E2
     end; cbv -[StdMap.find StdMap.index]; [|reflexivity]);
    rewrite (index_found _ _ _ _ _ E1); cbv -[StdMap.find StdMap.index];
    rewrite (index_found _ _ _ _ _ E2); reflexivity.
Qed.

(** ** The two tables *)

Lemma shape_table_hit (k : double) (c : ursa.shaping_time) :
  In (k, c) shape_table -> StdMap.find shape_table k = Some (k, c).
Proof.
  unfold shape_table. simpl In.
  intros H; repeat (destruct H as [H|H]; [injection H as <- <-|]);
    solve [reflexivity | contradiction].
Qed.

Lemma shape_table_keys_numbers (k : double) (c : ursa.shaping_time) :
  In (k, c) shape_table -> Double.is_nan k = false.
Proof.
  unfold shape_table. simpl In.
  intros H; repeat (destruct H as [H|H]; [injection H as <- <-|]);
    solve [reflexivity | contradiction].
Qed.

Lemma shape_table_miss (x : double) :
  Double.is_nan x = false ->
  (forall k, In k (StdMap.keys shape_table) -> Double.eqb x k = false) ->
  StdMap.find shape_table x = None.
Proof.
  intros Hx Hne. apply find_None_intro. intros k c Hin Hkx Hxk.
  assert (Heq : Double.eqb x k = true).
  { apply double_equiv_eqb; trivial.
    eapply shape_table_keys_numbers; eassumption. }
  rewrite Hne in Heq; [discriminate|].
  change k with (fst (k, c)). apply in_map. exact Hin.
Qed.

(** A NaN passes the test of line 209 and selects the first entry. *)
Lemma shape_table_nan :
  StdMap.find shape_table S754_nan = Some (d0_25, ursa.TIME0_25uS).
Proof. reflexivity. Qed.

Lemma input_table_hit (s : string) (c : ursa.inputs) :
  In (s, c) input_table -> StdMap.find input_table s = Some (s, c).
Proof.
  unfold input_table. simpl In.
  intros H; repeat (destruct H as [H|H]; [injection H as <- <-|]);
    solve [reflexivity | contradiction].
Qed.

Lemma input_table_miss (s : string) :
  ~ In s (StdMap.keys input_table) -> StdMap.find input_table s = None.
Proof.
  intros Hnot. apply find_None_intro. intros k c Hin Hks Hsk.
  apply Hnot. rewrite (less_string_equiv s k Hsk Hks).
  change k with (fst (k, c)). apply in_map. exact Hin.
Qed.

(** ** Return codes and the error log *)

Lemma errors_app (t1 t2 : list Event) :
  errors (t1 ++ t2) = (errors t1 ++ errors t2)%list.
Proof. apply flat_map_app. Qed.

Lemma disciplined_bind {A B : Type} (m : M A) (k : A -> M B) :
  disciplined m -> (forall a, disciplined (k a)) -> disciplined (bind m k).
Proof.
  intros Hm Hk g. unfold bind. specialize (Hm g).
  destruct (m g) as [[[a|r] g1] t1]; [|exact Hm].
  specialize (Hk a g1). destruct (k a g1) as [[s g2] t2].
  rewrite errors_app, Hm. exact Hk.
Qed.

Lemma disciplined_when (c : bool) (body : M unit) :
  disciplined body -> disciplined (when c body).
Proof. destruct c; [trivial|]. intros _ g. reflexivity. Qed.

Lemma disciplined_read {A : Type} (var : Globals -> A) :
  disciplined (read var).
Proof. intros g. reflexivity. Qed.

Lemma disciplined_write {A : Type} (set : A -> Globals -> Globals) (v : A) :
  disciplined (write set v).
Proof. intros g. reflexivity. Qed.

Lemma disciplined_getParam {A : Type} (lookup : string -> option A)
    (key : string) (set : A -> Globals -> Globals) :
  disciplined (getParam lookup key set).
Proof. intros g. unfold getParam. destruct (lookup key); reflexivity. Qed.

Lemma disciplined_param {A : Type} (lookup : string -> option A)
    (key : string) (set : A -> Globals -> Globals) (dflt : A) :
  disciplined (param lookup key set dflt).
Proof. intros g. reflexivity. Qed.

Lemma disciplined_fail (msg : string) :
  disciplined (ROS_ERROR msg ;; ret (-1) : M unit).
Proof. intros g. left. split; [reflexivity | discriminate]. Qed.

Lemma disciplined_succeed {A : Type} : disciplined (ret 1 : M A).
Proof. intros g. right. split; reflexivity. Qed.

Lemma disciplined_shape_map_assign k v :
  disciplined (shape_map_assign k v).
Proof. intros g. reflexivity. Qed.

Lemma disciplined_input_map_assign k v :
  disciplined (input_map_assign k v).
Proof. intros g. reflexivity. Qed.

Lemma disciplined_shape_map_index k : disciplined (shape_map_index k).
Proof.
  intros g. unfold shape_map_index.
  destruct (StdMap.index _ _ _). reflexivity.
Qed.

Lemma disciplined_input_map_index k : disciplined (input_map_index k).
Proof.
  intros g. unfold input_map_index.
  destruct (StdMap.index _ _ _). reflexivity.
Qed.

Create HintDb discipline.
#[local] Hint Resolve disciplined_when disciplined_read
  disciplined_write disciplined_getParam disciplined_param
  disciplined_fail disciplined_succeed disciplined_shape_map_assign
  disciplined_input_map_assign disciplined_shape_map_index
  disciplined_input_map_index : discipline.
#[local] Hint Extern 2 (disciplined (bind _ _)) =>
  apply disciplined_bind; [|intro] : discipline.

Lemma disciplined_fill_maps : disciplined fill_maps.
Proof. unfold fill_maps. auto 20 with discipline. Qed.

#[local] Hint Resolve disciplined_fill_maps : discipline.

Lemma disciplined_get_params_body (nh : NodeHandle) :
  disciplined (get_params_body nh).
Proof. unfold get_params_body. auto 60 with discipline. Qed.

(** [get_params] returns -1 with an error logged, or 1 with none. *)
Lemma get_params_codes (nh : NodeHandle) (g : Globals) :
  let '(r, _, t) := get_params nh g in
  (r = -1 /\ errors t <> []) \/ (r = 1 /\ errors t = []).
Proof.
  unfold get_params, call.
  pose proof (disciplined_get_params_body nh g) as H.
  destruct (get_params_body nh g) as [[[[]|r] g'] t]. exact H.
Qed.

(** ** [main] after [get_params] *)

Lemma main_after_get_params (nh : NodeHandle) (link_up : bool)
    (g g' : Globals) (r : Z) (t : list Event) :
  get_params nh g = (r, g', t) ->
  main nh link_up g
    = (if link_up then 0 else -1, g', (t ++ host_trace link_up g')%list).
Proof.
  intros Hgp.
  pose proof (get_params_codes nh g) as Hr. rewrite Hgp in Hr.
  unfold main, main_body.
  unfold bind at 1. rewrite call_get_params, Hgp.
  destruct g' as [? ? ? ? ? ? ? ? ? ? ? ? ? lp gm im].
  destruct Hr as [[-> _]|[-> _]];
    destruct link_up, lp, gm, im; reflexivity.
Qed.

Lemma split_at_first_false {A : Type} (p : A -> bool) (l : list A) :
  Forall (fun x => p x = true) l
  \/ exists pre f post,
       l = (pre ++ f :: post)%list
       /\ Forall (fun x => p x = true) pre /\ p f = false.
Proof.
  induction l as [|a l IH].
  - left. constructor.
  - destruct (p a) eqn:Ea.
    + destruct IH as [IH|(pre & f & post & -> & Hpre & Hf)].
      * left. constructor; assumption.
      * right. exists (a :: pre), f, post. repeat split; trivial.
        constructor; assumption.
    + right. exists [], a, l. repeat split; trivial.
Qed.

Lemma load_prev_cases (nh : NodeHandle) :
  lookup_bool nh "load_previous_settings" = Some true
  \/ value_or (lookup_bool nh "load_previous_settings") false = false.
Proof.
  destruct (lookup_bool nh "load_previous_settings") as [[|]|]; auto.
Qed.

(** ** Runs on the examples of the specification *)

(** 3, 0.1 and 12 microseconds are refused. *)
Lemma shaping_time_examples_refused :
  Forall (fun x => fst (get_params (nh_explicit x "shaped_input")
                          globals_init)
                   = (-1, stored (nh_explicit x "shaped_input")
                            required_fields
                            (set_input_map input_table
                               (set_shape_map shape_table globals_init))))
    [d3; d0_1; d12].
Proof. repeat constructor. Qed.

(** "input3_negative", the empty string and "Input1_Negative" are
    refused. *)
Lemma input_examples_refused :
  Forall (fun s => snd (get_params (nh_explicit d1 s) globals_init)
                   = (explicit_reads ++ [RosError msg_invalid_input])%list)
    ["input3_negative"; ""; "Input1_Negative"].
Proof. repeat constructor. Qed.

(** A shaping time that is not a number is not refused: it is equivalent
    to every key of [shape_map], and [find] returns the first entry. *)
Lemma nan_shaping_time_accepted :
  let '(r, g', t) :=
    get_params (nh_explicit S754_nan "shaped_input") globals_init in
  r = 1 /\ real_shaping_time g' = ursa.TIME0_25uS
  /\ t = (explicit_reads ++ common_reads)%list.
Proof. vm_compute. repeat split. Qed.

(** ** The properties of the specification *)

(** C1 (the code departs from it): on the empty parameter server
    [get_params] fails for the missing high voltage and returns -1, yet
    [main] still constructs the interface on the empty port name at baud 0
    and calls [connect()]; when the link comes up the process even exits
    with status 0. *)
Theorem main_connects_after_failed_resolution (link_up : bool) :
  exists g' rest,
    get_params nh_empty globals_init
      = (-1, g', [GetParam "load_previous_settings";
                  GetParam "high_voltage";
                  RosError "High voltage must be set."])
    /\ main nh_empty link_up globals_init
       = (if link_up then 0 else -1, g',
          [GetParam "load_previous_settings"; GetParam "high_voltage";
           RosError "High voltage must be set.";
           NewInterface "" 0; Connect; Connected link_up] ++ rest)%list.
Proof.
  destruct link_up; do 2 eexists; split; reflexivity.
Qed.

(** C2: [get_params] returns -1 on every path that logs a validation
    error and 1 on the only path that logs none; it never returns 0, so
    its result converts to [true] and the guard [!get_params(nh)] of
    [main] is false on every path, the failing ones included. *)
Theorem get_params_never_returns_zero (nh : NodeHandle) (g : Globals) :
  let '(r, _, t) := get_params nh g in
  ((r = -1 /\ errors t <> []) \/ (r = 1 /\ errors t = []))
  /\ (r =? 0) = false /\ int_to_bool r = true /\ lnot r = false.
Proof.
  pose proof (get_params_codes nh g) as H.
  destruct (get_params nh g) as [[r g'] t].
  split; [exact H|].
  destruct H as [[-> _]|[-> _]]; repeat split.
Qed.

(** C3: with [load_previous_settings] off, the first required field that
    is absent, in the order high_voltage, gain, threshold, shaping_time,
    input_and_polarity, ramping_time, ends the call with -1: exactly one
    error is logged, the one of that field; the parameters read are those
    up to and including it, and no later one; only the fields before it
    have been stored.  In particular an absent high_voltage is reported
    whatever the other fields are. *)
Theorem first_missing_field_reported (nh : NodeHandle) (g : Globals) :
  value_or (lookup_bool nh "load_previous_settings") false = false ->
  (forall pre f post,
      required_fields = (pre ++ f :: post)%list ->
      Forall (fun x => present nh x = true) pre ->
      present nh f = false ->
      let t := (GetParam "load_previous_settings"
                  :: List.map (fun x => GetParam (key_of x)) pre
                  ++ [GetParam (key_of f)])%list in
      get_params nh g
        = (-1, stored nh pre g, (t ++ [RosError (missing_report f)])%list)
      /\ errors (t ++ [RosError (missing_report f)]) = [missing_report f])
  /\ (lookup_int nh "high_voltage" = None ->
      get_params nh g
        = (-1, set_load_prev false g,
           [GetParam "load_previous_settings"; GetParam "high_voltage";
            RosError "High voltage must be set."])).
Proof.
  intros Hlp. split.
  - intros pre f post Hsplit Hpre Hf t. split.
    + subst t. rewrite (get_params_first_missing nh g pre post f); trivial.
      simpl. now rewrite <- app_assoc.
    + subst t. rewrite errors_app. simpl.
      rewrite errors_app. simpl. rewrite app_nil_r.
      clear. induction pre; simpl; trivial.
  - intros Hhv.
    apply (get_params_first_missing nh g [] (tl required_fields) HighVoltage);
      trivial.
    simpl. now rewrite Hhv.
Qed.

(** C8: with [load_previous_settings] on, [get_params] returns 1 whatever
    the six explicit fields are: it reads none of them, logs nothing,
    leaves the six settings and both tables as they were, sets
    [load_prev], and resolves port, baud, mode, immediate start and frame
    from the server or their defaults; [main] then calls
    [loadPrevSettings] and no setter. *)
Theorem load_previous_settings_skips_validation
    (nh : NodeHandle) (g : Globals) :
  lookup_bool nh "load_previous_settings" = Some true ->
  let g' := common_params nh (set_load_prev true g) in
  let t := GetParam "load_previous_settings" :: common_reads in
  get_params nh g = (1, g', t)
  /\ errors t = []
  /\ load_prev g' = true
  /\ settings_of g' = settings_of g
  /\ (shaping_time g', input_polarity g', shape_map g', input_map g')
     = (shaping_time g, input_polarity g, shape_map g, input_map g)
  /\ port g' = value_or (lookup_string nh "port") "/dev/ttyUSB0"
  /\ baud g' = value_or (lookup_int nh "baud") 115200
  /\ GMmode g' = value_or (lookup_bool nh "use_GM_mode") false
  /\ imeadiate g' = value_or (lookup_bool nh "imeadiate_mode") false
  /\ detector_frame g'
     = value_or (lookup_string nh "detector_frame") "rad_link"
  /\ settings_calls (host_trace true g') = [LoadPrevSettings]
  /\ snd (main nh true g) = (t ++ host_trace true g')%list.
Proof.
  intros Hlp g' t.
  assert (Hgp : get_params nh g = (1, g', t))
    by (apply get_params_load_prev; exact Hlp).
  split; [exact Hgp|].
  repeat split.
  - unfold settings_calls, host_trace, after_connect, apply_settings,
      start_acquisition.
    subst g'. cbn [load_prev common_params set_detector_frame
                     set_imeadiate set_GMmode set_baud set_port
                     set_load_prev imeadiate GMmode].
    destruct (value_or (lookup_bool nh "imeadiate_mode") false),
      (value_or (lookup_bool nh "use_GM_mode") false); reflexivity.
  - now rewrite (main_after_get_params nh true g g' 1 t Hgp).
Qed.

(** C9: with [load_previous_settings] on and port, baud, use_GM_mode,
    imeadiate_mode and detector_frame absent, [get_params] returns 1
    without logging any error, and the five variables hold
    "/dev/ttyUSB0", 115200, false (spectral mode), false and
    "rad_link". *)
Theorem defaults_when_absent (nh : NodeHandle) (g : Globals) :
  lookup_bool nh "load_previous_settings" = Some true ->
  lookup_string nh "port" = None ->
  lookup_int nh "baud" = None ->
  lookup_bool nh "use_GM_mode" = None ->
  lookup_bool nh "imeadiate_mode" = None ->
  lookup_string nh "detector_frame" = None ->
  exists g' t,
    get_params nh g = (1, g', t)
    /\ errors t = []
    /\ port g' = "/dev/ttyUSB0"
    /\ baud g' = 115200
    /\ GMmode g' = false
    /\ imeadiate g' = false
    /\ detector_frame g' = "rad_link"
    /\ load_prev g' = true.
Proof.
  intros Hlp Hport Hbaud Hgm Him Hframe.
  do 2 eexists. split; [apply get_params_load_prev; exact Hlp|].
  unfold common_params. rewrite Hport, Hbaud, Hgm, Him, Hframe.
  repeat split.
Qed.

(** The raw values in the variables once all six fields are read. *)
Lemma stored_all_raw (nh : NodeHandle) (g : Globals) sm im :
  let g1 := set_input_map im
              (set_shape_map sm (stored nh required_fields g)) in
  shaping_time g1
    = value_or (lookup_double nh "shaping_time") (shaping_time g)
  /\ input_polarity g1
     = value_or (lookup_string nh "input_and_polarity") (input_polarity g).
Proof. split; reflexivity. Qed.

Lemma settings_of_tables (g : Globals) sm im :
  settings_of (set_input_map im (set_shape_map sm g)) = settings_of g.
Proof. reflexivity. Qed.

Lemma settings_after_resolution (nh : NodeHandle) (g : Globals) c ci sm im :
  settings_of
    (common_params nh
       (set_real_input ci
          (set_real_shaping_time c
             (set_input_map im (set_shape_map sm g)))))
  = settings_of (set_real_input ci (set_real_shaping_time c g)).
Proof. reflexivity. Qed.


(** The outcome of [get_params] on the explicit path, by table entry. *)
Lemma get_params_explicit_at (nh : NodeHandle) (g : Globals)
    (x : double) (ip : string) :
  shape_map g = [] -> input_map g = [] ->
  value_or (lookup_bool nh "load_previous_settings") false = false ->
  Forall (fun f => present nh f = true) required_fields ->
  lookup_double nh "shaping_time" = Some x ->
  lookup_string nh "input_and_polarity" = Some ip ->
  let g1 :=
    set_input_map input_table
      (set_shape_map shape_table (stored nh required_fields g)) in
  get_params nh g =
    match StdMap.find shape_table x with
    | None =>
        (-1, g1, (explicit_reads ++ [RosError msg_invalid_shaping])%list)
    | Some (_, c) =>
        match StdMap.find input_table ip with
        | None =>
            (-1, g1, (explicit_reads ++ [RosError msg_invalid_input])%list)
        | Some (_, ci) =>
            (1,
             common_params nh
               (set_real_input ci (set_real_shaping_time c g1)),
             (explicit_reads ++ common_reads)%list)
        end
    end.
Proof.
  intros Hsm Him Hlp Hall Hx Hip g1.
  pose proof (get_params_explicit nh g Hsm Him Hlp Hall) as Hgp.
  cbv zeta in Hgp. fold g1 in Hgp.
  destruct (stored_all_raw nh g shape_table input_table) as [Hst Hpol].
  cbv zeta in Hst, Hpol. fold g1 in Hst, Hpol.
  rewrite Hst, Hpol, Hx, Hip in Hgp. exact Hgp.
Qed.

(** C10: after a successful [get_params], with the link up, the calls
    [main] makes on the driver's settings before [ros::spin()] are, when
    [load_prev] is off, exactly setGain(gain), setThresholdOffset(threshold),
    setShapingTime(real_shaping_time), setInput(real_input), setRamp(ramp),
    setVoltage(HV) in this order, and, when [load_prev] is on, the single
    call loadPrevSettings(). *)
Theorem settings_applied_in_order (nh : NodeHandle) (g g' : Globals)
    (t : list Event) :
  get_params nh g = (1, g', t) ->
  exists rest,
    main nh true g = (0, g', (t ++ rest)%list)
    /\ (load_prev g' = false ->
        settings_calls rest
          = [SetGain (gain g'); SetThresholdOffset (threshold g');
             SetShapingTime (real_shaping_time g'); SetInput (real_input g');
             SetRamp (ramp g'); SetVoltage (HV g')])
    /\ (load_prev g' = true -> settings_calls rest = [LoadPrevSettings]).
Proof.
  intros Hgp. exists (host_trace true g'). split.
  - exact (main_after_get_params nh true g g' 1 t Hgp).
  - unfold settings_calls, host_trace, after_connect, apply_settings,
      start_acquisition.
    split; intros ->; destruct (imeadiate g'), (GMmode g'); reflexivity.
Qed.

(** C5 (the code departs from it): a shaping time that is not a number
    equals none of the eight keys, yet it is not refused: with the other
    five fields present and the label valid, [get_params] logs no error,
    returns 1 and resolves it to [TIME0_25uS], the first entry of the
    table.  [shape_map.find] compares keys with [operator<] only, and a NaN
    is less than no key and no key is less than it. *)
Theorem nan_shaping_time_passes_validation :
  forallb (fun k => negb (Double.eqb S754_nan k)) (StdMap.keys shape_table)
  = true
  /\ StdMap.find shape_table S754_nan = Some (d0_25, ursa.TIME0_25uS)
  /\ let '(r, g', t) :=
       get_params (nh_explicit S754_nan "shaped_input") globals_init in
     r = 1 /\ errors t = []
     /\ shaping_time g' = S754_nan
     /\ real_shaping_time g' = ursa.TIME0_25uS.
Proof.
  split; [reflexivity|]. split; [reflexivity|].
  vm_compute. repeat split.
Qed.

(** X11: with the other five fields present, a shaping time that is a key
    of the table (0.25, 0.5, 1, 2, 4, 6, 8, 10) makes [get_params] return
    1, once the input label is valid too, with [real_shaping_time] the
    code of that key; a number (any double but a NaN) that equals no key,
    however close, makes it return -1 with the invalid-shaping-time error
    as the only one. *)
Theorem shaping_time_exact_match (nh : NodeHandle) (g : Globals)
    (x : double) (ip : string) :
  shape_map g = [] -> input_map g = [] ->
  value_or (lookup_bool nh "load_previous_settings") false = false ->
  Forall (fun f => present nh f = true) required_fields ->
  lookup_double nh "shaping_time" = Some x ->
  lookup_string nh "input_and_polarity" = Some ip ->
  (forall c,
      In (x, c) shape_table -> In ip (StdMap.keys input_table) ->
      exists g',
        get_params nh g = (1, g', (explicit_reads ++ common_reads)%list)
        /\ shaping_time g' = x /\ real_shaping_time g' = c)
  /\ (Double.is_nan x = false ->
      (forall k, In k (StdMap.keys shape_table) -> Double.eqb x k = false) ->
      exists g',
        get_params nh g
          = (-1, g', (explicit_reads ++ [RosError msg_invalid_shaping])%list)
        /\ errors (explicit_reads ++ [RosError msg_invalid_shaping])
           = [msg_invalid_shaping]
        /\ real_shaping_time g' = real_shaping_time g).
Proof.
  intros Hsm Him Hlp Hall Hx Hip.
  pose proof (get_params_explicit_at nh g x ip Hsm Him Hlp Hall Hx Hip)
    as Hgp.
  cbv zeta in Hgp. split.
  - intros c Hc Hin.
    apply in_map_iff in Hin. destruct Hin as ([ip' ci] & Heq & Hin).
    simpl in Heq. subst ip'.
    rewrite (shape_table_hit x c Hc), (input_table_hit ip ci Hin) in Hgp.
    eexists. split; [exact Hgp|]. split; [|reflexivity].
    cbn. now rewrite Hx.
  - intros Hnan Hne.
    rewrite (shape_table_miss x Hnan Hne) in Hgp.
    eexists. split; [exact Hgp|]. split; reflexivity.
Qed.

(** C6: with the other five fields present and the shaping time valid, an
    input label that is a key of the table (input1_negative,
    input1_positive, input2_negative, input2_positive, shaped_input) makes
    [get_params] return 1 with [real_input] the code of that key; any
    other string, one that differs only in case or the empty one included,
    makes it return -1 with the invalid-input error as the only one. *)
Theorem input_polarity_exact_match (nh : NodeHandle) (g : Globals)
    (x : double) (c : ursa.shaping_time) (ip : string) :
  shape_map g = [] -> input_map g = [] ->
  value_or (lookup_bool nh "load_previous_settings") false = false ->
  Forall (fun f => present nh f = true) required_fields ->
  lookup_double nh "shaping_time" = Some x ->
  In (x, c) shape_table ->
  lookup_string nh "input_and_polarity" = Some ip ->
  (forall ci,
      In (ip, ci) input_table ->
      exists g',
        get_params nh g = (1, g', (explicit_reads ++ common_reads)%list)
        /\ input_polarity g' = ip /\ real_input g' = ci)
  /\ (~ In ip (StdMap.keys input_table) ->
      exists g',
        get_params nh g
          = (-1, g', (explicit_reads ++ [RosError msg_invalid_input])%list)
        /\ errors (explicit_reads ++ [RosError msg_invalid_input])
           = [msg_invalid_input]
        /\ real_input g' = real_input g).
Proof.
  intros Hsm Him Hlp Hall Hx Hc Hip.
  pose proof (get_params_explicit_at nh g x ip Hsm Him Hlp Hall Hx Hip)
    as Hgp.
  cbv zeta in Hgp. rewrite (shape_table_hit x c Hc) in Hgp. split.
  - intros ci Hin. rewrite (input_table_hit ip ci Hin) in Hgp.
    eexists. split; [exact Hgp|]. split; [|reflexivity].
    cbn. now rewrite Hip.
  - intros Hnot. rewrite (input_table_miss ip Hnot) in Hgp.
    eexists. split; [exact Hgp|]. split; reflexivity.
Qed.

(** C7: two parameter servers that agree everywhere except that
    input_and_polarity is "input1_positive" on one and "input2_positive"
    on the other, with the other five fields present and the shaping time
    valid, both make [get_params] return 1, and [real_input] is
    [INPUT1POS] after either; the variables differ in nothing but
    [input_polarity]. *)
Theorem input2_positive_shares_code (nh1 nh2 : NodeHandle) (g : Globals)
    (x : double) (c : ursa.shaping_time) :
  shape_map g = [] -> input_map g = [] ->
  (forall k, lookup_bool nh1 k = lookup_bool nh2 k) ->
  (forall k, lookup_int nh1 k = lookup_int nh2 k) ->
  (forall k, lookup_double nh1 k = lookup_double nh2 k) ->
  (forall k, k <> "input_and_polarity" ->
             lookup_string nh1 k = lookup_string nh2 k) ->
  lookup_string nh1 "input_and_polarity" = Some "input1_positive" ->
  lookup_string nh2 "input_and_polarity" = Some "input2_positive" ->
  value_or (lookup_bool nh1 "load_previous_settings") false = false ->
  Forall (fun f => present nh1 f = true) required_fields ->
  lookup_double nh1 "shaping_time" = Some x ->
  In (x, c) shape_table ->
  exists g1 g2 t,
    get_params nh1 g = (1, g1, t)
    /\ get_params nh2 g = (1, g2, t)
    /\ real_input g1 = ursa.INPUT1POS
    /\ real_input g2 = ursa.INPUT1POS
    /\ g1 = set_input_polarity "input1_positive" g2.
Proof.
  intros Hsm Him Hb Hi Hd Hs Hip1 Hip2 Hlp1 Hall1 Hx1 Hc.
  assert (Hlp2 : value_or (lookup_bool nh2 "load_previous_settings") false
                 = false) by (rewrite <- Hb; exact Hlp1).
  assert (Hx2 : lookup_double nh2 "shaping_time" = Some x)
    by (rewrite <- Hd; exact Hx1).
  assert (Hall2 : Forall (fun f => present nh2 f = true) required_fields).
  { unfold required_fields in *.
    repeat match goal with
           | H : Forall _ (_ :: _) |- _ => inversion_clear H
           end.
    cbn [present key_of] in *.
    repeat constructor; cbn [present key_of];
      rewrite <- ?Hi, <- ?Hd, ?Hip2; trivial. }
  pose proof (get_params_explicit_at nh1 g x _ Hsm Him Hlp1 Hall1 Hx1 Hip1)
    as H1.
  pose proof (get_params_explicit_at nh2 g x _ Hsm Him Hlp2 Hall2 Hx2 Hip2)
    as H2.
  cbv zeta in H1, H2.
  rewrite (shape_table_hit x c Hc) in H1, H2.
  rewrite (input_table_hit "input1_positive" ursa.INPUT1POS) in H1
    by (simpl; tauto).
  rewrite (input_table_hit "input2_positive" ursa.INPUT1POS) in H2
    by (simpl; tauto).
  do 3 eexists. split; [exact H1|]. split; [exact H2|].
  split; [reflexivity|]. split; [reflexivity|].
  unfold common_params, stored, required_fields.
  cbn [fold_left store key_of].
  rewrite <- !Hb, <- !Hi, <- !Hd.
  rewrite <- (Hs "port"), <- (Hs "detector_frame") by discriminate.
  rewrite Hip1, Hip2. destruct g. reflexivity.
Qed.

(** ** Further properties of [get_params] *)

Lemma reads_then_reports_bind {A B : Type} (m : M A) (k : A -> M B) :
  reads_then_reports m -> (forall a, reads_then_reports (k a)) ->
  reads_then_reports (bind m k).
Proof.
  intros Hm Hk g. unfold bind. specialize (Hm g).
  destruct (m g) as [[[a|r] g1] t1]; [|exact Hm].
  destruct Hm as (ks1 & -> & Hin1).
  specialize (Hk a g1). destruct (k a g1) as [[[b|r] g2] t2].
  - destruct Hk as (ks2 & -> & Hin2). exists (ks1 ++ ks2)%list.
    split; [now rewrite map_app | now apply incl_app].
  - destruct Hk as (ks2 & Hin2 & Hk). exists (ks1 ++ ks2)%list.
    split; [now apply incl_app|].
    destruct Hk as [[-> ->]|(-> & msg & Hmsg & ->)].
    + left. split; [reflexivity | now rewrite map_app].
    + right. split; [reflexivity|]. exists msg. split; [exact Hmsg|].
      now rewrite map_app, app_assoc.
Qed.

Lemma reads_then_reports_silent {A : Type} (m : M A) :
  (forall g, exists a g', m g = (Next a, g', [])) -> reads_then_reports m.
Proof.
  intros H g. destruct (H g) as (a & g' & ->).
  exists []. split; [reflexivity | apply incl_nil_l].
Qed.

Lemma reads_then_reports_when (c : bool) (body : M unit) :
  reads_then_reports body -> reads_then_reports (when c body).
Proof.
  destruct c; [trivial|]. intros _.
  apply reads_then_reports_silent. intros g. now exists tt, g.
Qed.

Lemma reads_then_reports_read {A : Type} (var : Globals -> A) :
  reads_then_reports (read var).
Proof. apply reads_then_reports_silent. intros g. now exists (var g), g. Qed.

Lemma reads_then_reports_write {A : Type} (set : A -> Globals -> Globals)
    (v : A) :
  reads_then_reports (write set v).
Proof. apply reads_then_reports_silent. intros g. now exists tt, (set v g). Qed.

Lemma reads_then_reports_getParam {A : Type} (lookup : string -> option A)
    (key : string) (set : A -> Globals -> Globals) :
  In key parameter_keys -> reads_then_reports (getParam lookup key set).
Proof.
  intros Hkey g. unfold getParam.
  destruct (lookup key); exists [key];
    (split; [reflexivity|]); intros k [<-|[]]; exact Hkey.
Qed.

Lemma reads_then_reports_param {A : Type} (lookup : string -> option A)
    (key : string) (set : A -> Globals -> Globals) (dflt : A) :
  In key parameter_keys -> reads_then_reports (param lookup key set dflt).
Proof.
  intros Hkey g. exists [key].
  split; [reflexivity|]. intros k [<-|[]]. exact Hkey.
Qed.

Lemma reads_then_reports_fail (msg : string) :
  In msg error_messages ->
  reads_then_reports (ROS_ERROR msg ;; ret (-1) : M unit).
Proof.
  intros Hmsg g. exists []. split; [apply incl_nil_l|].
  right. split; [reflexivity|]. exists msg. now split.
Qed.

Lemma reads_then_reports_succeed {A : Type} :
  reads_then_reports (ret 1 : M A).
Proof.
  intros g. exists []. split; [apply incl_nil_l|]. left. now split.
Qed.

Lemma reads_then_reports_shape_map_assign k v :
  reads_then_reports (shape_map_assign k v).
Proof. apply reads_then_reports_silent. intros g. now do 2 eexists. Qed.

Lemma reads_then_reports_input_map_assign k v :
  reads_then_reports (input_map_assign k v).
Proof. apply reads_then_reports_silent. intros g. now do 2 eexists. Qed.

Lemma reads_then_reports_shape_map_index k :
  reads_then_reports (shape_map_index k).
Proof.
  apply reads_then_reports_silent. intros g. unfold shape_map_index.
  destruct (StdMap.index _ _ _). now do 2 eexists.
Qed.

Lemma reads_then_reports_input_map_index k :
  reads_then_reports (input_map_index k).
Proof.
  apply reads_then_reports_silent. intros g. unfold input_map_index.
  destruct (StdMap.index _ _ _). now do 2 eexists.
Qed.

Create HintDb trace_shape.
#[local] Hint Resolve reads_then_reports_when reads_then_reports_read
  reads_then_reports_write reads_then_reports_getParam
  reads_then_reports_param reads_then_reports_fail
  reads_then_reports_succeed reads_then_reports_shape_map_assign
  reads_then_reports_input_map_assign reads_then_reports_shape_map_index
  reads_then_reports_input_map_index : trace_shape.
#[local] Hint Extern 2 (reads_then_reports (bind _ _)) =>
  apply reads_then_reports_bind; [|intro] : trace_shape.
#[local] Hint Extern 1 (In _ parameter_keys) =>
  solve [repeat (first [left; reflexivity | right])] : trace_shape.
#[local] Hint Extern 1 (In _ error_messages) =>
  solve [repeat (first [left; reflexivity | right])] : trace_shape.

Lemma reads_then_reports_fill_maps : reads_then_reports fill_maps.
Proof. unfold fill_maps. auto 20 with trace_shape. Qed.

#[local] Hint Resolve reads_then_reports_fill_maps : trace_shape.

Lemma reads_then_reports_get_params_body (nh : NodeHandle) :
  reads_then_reports (get_params_body nh).
Proof. unfold get_params_body. auto 60 with trace_shape. Qed.

Lemma map_GetParam_quiet (ks : list string) :
  Forall (fun e => is_device_call e = false) (List.map GetParam ks).
Proof. induction ks; constructor; trivial. Qed.

Lemma get_params_trace_shape_aux (nh : NodeHandle) (g : Globals) :
  let '(r, _, t) := get_params nh g in
  exists ks,
    incl ks parameter_keys
    /\ ((r = 1 /\ t = List.map GetParam ks)
        \/ (r = -1
            /\ exists msg, In msg error_messages
                           /\ t = (List.map GetParam ks
                                   ++ [RosError msg])%list)).
Proof.
  unfold get_params, call.
  pose proof (reads_then_reports_get_params_body nh g) as H.
  destruct (get_params_body nh g) as [[[[]|r] g'] t]. exact H.
Qed.

(** X1: whatever the parameter server and the variables, a run of
    [get_params] reads parameters among the twelve of the node and does
    nothing else, except that a run returning -1 ends by logging one of the
    eight known errors, once and as its last action; it makes no call on the
    driver. *)
Theorem get_params_trace_shape (nh : NodeHandle) (g : Globals) :
  let '(r, _, t) := get_params nh g in
  (exists ks,
      incl ks parameter_keys
      /\ ((r = 1 /\ t = List.map GetParam ks)
          \/ (r = -1
              /\ exists msg, In msg error_messages
                             /\ t = (List.map GetParam ks
                                     ++ [RosError msg])%list)))
  /\ Forall (fun e => is_device_call e = false) t.
Proof.
  pose proof (get_params_trace_shape_aux nh g) as H.
  destruct (get_params nh g) as [[r g'] t].
  split; [exact H|].
  destruct H as (ks & _ & [[_ ->]|(_ & msg & _ & ->)]).
  - apply map_GetParam_quiet.
  - apply Forall_app. split; [apply map_GetParam_quiet|].
    constructor; [reflexivity | constructor].
Qed.

(** X2: [get_params] depends on the parameter server through the twelve
    parameters only: on two servers that answer alike on them it returns the
    same value, leaves the same variables and does the same things. *)
Theorem get_params_reads_only_its_parameters (nh1 nh2 : NodeHandle)
    (g : Globals) :
  same_parameters nh1 nh2 -> get_params nh1 g = get_params nh2 g.
Proof.
  intros Hsame.
  assert (Hb : forall k, In k parameter_keys ->
                         lookup_bool nh1 k = lookup_bool nh2 k)
    by (intros k Hk; apply (Hsame k Hk)).
  assert (Hi : forall k, In k parameter_keys ->
                         lookup_int nh1 k = lookup_int nh2 k)
    by (intros k Hk; apply (Hsame k Hk)).
  assert (Hd : forall k, In k parameter_keys ->
                         lookup_double nh1 k = lookup_double nh2 k)
    by (intros k Hk; apply (Hsame k Hk)).
  assert (Hs : forall k, In k parameter_keys ->
                         lookup_string nh1 k = lookup_string nh2 k)
    by (intros k Hk; apply (Hsame k Hk)).
  expose_lookups.
  rewrite !Hb, !Hi, !Hd, !Hs
    by (repeat (first [left; reflexivity | right])).
  reflexivity.
Qed.

(** [get_params_explicit], entered with the tables already filled. *)
Lemma get_params_explicit_filled (nh : NodeHandle) (g : Globals) :
  shape_map g = shape_table -> input_map g = input_table ->
  value_or (lookup_bool nh "load_previous_settings") false = false ->
  Forall (fun x => present nh x = true) required_fields ->
  let g1 := read_and_filled nh g in
  get_params nh g =
    match StdMap.find shape_table (shaping_time g1) with
    | None =>
        (-1, g1, (explicit_reads ++ [RosError msg_invalid_shaping])%list)
    | Some (_, c) =>
        match StdMap.find input_table (input_polarity g1) with
        | None =>
            (-1, g1, (explicit_reads ++ [RosError msg_invalid_input])%list)
        | Some (_, ci) =>
            (1, resolved nh g c ci, (explicit_reads ++ common_reads)%list)
        end
    end.
Proof.
  intros Hsm Him Hlp Hall. unfold resolved, read_and_filled.
  repeat match goal with
         | H : Forall _ (_ :: _) |- _ => inversion_clear H
         | H : Forall _ [] |- _ => clear H
         | H : Forall _ required_fields |- _ => unfold required_fields in H
         end.
  cbn [present key_of] in *.
  expose_lookups.
  cbn [stored required_fields fold_left store key_of List.map app].
  repeat match goal with
         | H : is_some ?o = _ |- _ =>
             destruct o; simpl in H; try discriminate H; clear H
         end.
  rewrite Hlp; destruct g; simpl in Hsm, Him; subst;
    cbv -[StdMap.find StdMap.index];
    (match goal with
     | |- context [StdMap.find ?m ?k] =>
         destruct (StdMap.find m k) as [[? c]|] eqn:E1
     end; cbv -[StdMap.find StdMap.index]; [|reflexivity]);
    (match goal with
     | |- context [StdMap.find ?m ?k] =>
         destruct (StdMap.find m k) as [[? ci]|] eqn:E2
     end; cbv -[StdMap.find StdMap.index]; [|reflexivity]);
    rewrite (index_found _ _ _ _ _ E1); cbv -[StdMap.find StdMap.index];
    rewrite (index_found _ _ _ _ _ E2); reflexivity.
Qed.

(** The explicit path from either state of the maps. *)
Lemma get_params_explicit_at_rest (nh : NodeHandle) (g : Globals) :
  maps_at_rest g ->
  value_or (lookup_bool nh "load_previous_settings") false = false ->
  Forall (fun x => present nh x = true) required_fields ->
  get_params nh g =
    match StdMap.find shape_table (shaping_time (read_and_filled nh g)) with
    | None =>
        (-1, read_and_filled nh g,
         (explicit_reads ++ [RosError msg_invalid_shaping])%list)
    | Some (_, c) =>
        match StdMap.find input_table
                (input_polarity (read_and_filled nh g)) with
        | None =>
            (-1, read_and_filled nh g,
             (explicit_reads ++ [RosError msg_invalid_input])%list)
        | Some (_, ci) =>
            (1, resolved nh g c ci, (explicit_reads ++ common_reads)%list)
        end
    end.
Proof.
  intros [[Hsm Him]|[Hsm Him]] Hlp Hall.
  - exact (get_params_explicit nh g Hsm Him Hlp Hall).
  - exact (get_params_explicit_filled nh g Hsm Him Hlp Hall).
Qed.

(** Every run of [get_params] from maps at rest is one of five. *)
Lemma get_params_cases (nh : NodeHandle) (g : Globals) :
  maps_at_rest g ->
  (lookup_bool nh "load_previous_settings" = Some true
   /\ get_params nh g
      = (1, common_params nh (set_load_prev true g),
         GetParam "load_previous_settings" :: common_reads))
  \/ (value_or (lookup_bool nh "load_previous_settings") false = false
      /\ exists pre f post,
           required_fields = (pre ++ f :: post)%list
           /\ Forall (fun x => present nh x = true) pre
           /\ present nh f = false
           /\ get_params nh g
              = (-1, stored nh pre g,
                 (GetParam "load_previous_settings"
                    :: List.map (fun x => GetParam (key_of x)) pre
                    ++ [GetParam (key_of f);
                        RosError (missing_report f)])%list))
  \/ (value_or (lookup_bool nh "load_previous_settings") false = false
      /\ Forall (fun x => present nh x = true) required_fields
      /\ ((StdMap.find shape_table (shaping_time (read_and_filled nh g))
           = None
           /\ get_params nh g
              = (-1, read_and_filled nh g,
                 (explicit_reads ++ [RosError msg_invalid_shaping])%list))
          \/ (exists k c,
                 StdMap.find shape_table
                   (shaping_time (read_and_filled nh g)) = Some (k, c)
                 /\ StdMap.find input_table
                      (input_polarity (read_and_filled nh g)) = None
                 /\ get_params nh g
                    = (-1, read_and_filled nh g,
                       (explicit_reads
                          ++ [RosError msg_invalid_input])%list))
          \/ (exists k c k' ci,
                 StdMap.find shape_table
                   (shaping_time (read_and_filled nh g)) = Some (k, c)
                 /\ StdMap.find input_table
                      (input_polarity (read_and_filled nh g))
                    = Some (k', ci)
                 /\ get_params nh g
                    = (1, resolved nh g c ci,
                       (explicit_reads ++ common_reads)%list)))).
Proof.
  intros Hrest.
  destruct (load_prev_cases nh) as [Hlp|Hlp].
  - left. split; [exact Hlp | now apply get_params_load_prev].
  - right.
    destruct (split_at_first_false (present nh) required_fields)
      as [Hall|(pre & f & post & Hsplit & Hpre & Hf)].
    + right. split; [exact Hlp|]. split; [exact Hall|].
      rewrite (get_params_explicit_at_rest nh g Hrest Hlp Hall).
      destruct (StdMap.find shape_table _) as [[k c]|] eqn:E1.
      * destruct (StdMap.find input_table _) as [[k' ci]|] eqn:E2.
        -- right. right. exists k, c, k', ci.
           split; [reflexivity|]. split; reflexivity.
        -- right. left. exists k, c.
           split; [reflexivity|]. split; reflexivity.
      * left. split; reflexivity.
    + left. split; [exact Hlp|]. exists pre, f, post.
      split; [exact Hsplit|]. split; [exact Hpre|]. split; [exact Hf|].
      now apply (get_params_first_missing nh g pre post f).
Qed.

Lemma present_all_values (nh : NodeHandle) :
  Forall (fun x => present nh x = true) required_fields ->
  exists hv gn th x ip rp,
    lookup_int nh "high_voltage" = Some hv
    /\ lookup_double nh "gain" = Some gn
    /\ lookup_int nh "threshold" = Some th
    /\ lookup_double nh "shaping_time" = Some x
    /\ lookup_string nh "input_and_polarity" = Some ip
    /\ lookup_int nh "ramping_time" = Some rp.
Proof.
  unfold required_fields. intros Hall.
  repeat match goal with
         | H : Forall _ (_ :: _) |- _ => inversion_clear H
         end.
  cbn [present key_of] in *.
  repeat match goal with
         | H : is_some ?o = _ |- _ =>
             destruct o; simpl in H; try discriminate H; clear H
         end.
  do 6 eexists. repeat split.
Qed.

Lemma required_prefix_cases (pre post : list Field) :
  required_fields = (pre ++ post)%list ->
  In pre [ []; [HighVoltage]; [HighVoltage; Gain];
           [HighVoltage; Gain; Threshold];
           [HighVoltage; Gain; Threshold; ShapingTime];
           [HighVoltage; Gain; Threshold; ShapingTime; InputPolarity];
           required_fields ].
Proof.
  unfold required_fields. intros Hsplit.
  do 6 (destruct pre as [|? pre];
        [ simpl; tauto | injection Hsplit as <- Hsplit ]).
  destruct pre; [simpl; tauto | destruct post; discriminate].
Qed.

(** Reading a present prefix of the fields again changes nothing. *)
Lemma stored_again (nh : NodeHandle) (g : Globals) (pre post : list Field) :
  required_fields = (pre ++ post)%list ->
  Forall (fun x => present nh x = true) pre ->
  stored nh pre (stored nh pre g) = stored nh pre g.
Proof.
  intros Hsplit Hpre.
  pose proof (required_prefix_cases pre post Hsplit) as Hcases.
  simpl in Hcases. unfold required_fields in Hcases.
  repeat (destruct Hcases as [<-|Hcases]);
    try contradiction;
    repeat match goal with
           | H : Forall _ (_ :: _) |- _ => inversion_clear H
           | H : Forall _ [] |- _ => clear H
           end;
    cbn [present key_of] in *;
    cbn [stored fold_left store key_of];
    repeat match goal with
           | H : is_some ?o = _ |- _ =>
               destruct o; simpl in H; try discriminate H; clear H
           end;
    destruct g; cbv; reflexivity.
Qed.

Lemma common_params_again (nh : NodeHandle) (g : Globals) (b : bool) :
  common_params nh (set_load_prev b (common_params nh (set_load_prev b g)))
  = common_params nh (set_load_prev b g).
Proof. destruct g. cbv -[value_or]. reflexivity. Qed.

Lemma read_and_filled_raw (nh : NodeHandle) (g : Globals)
    (x : double) (ip : string) :
  lookup_double nh "shaping_time" = Some x ->
  lookup_string nh "input_and_polarity" = Some ip ->
  shaping_time (read_and_filled nh g) = x
  /\ input_polarity (read_and_filled nh g) = ip.
Proof.
  intros Hx Hip.
  destruct (stored_all_raw nh g shape_table input_table) as [Hst Hpol].
  cbv zeta in Hst, Hpol. unfold read_and_filled.
  rewrite Hst, Hpol, Hx, Hip. split; reflexivity.
Qed.

Lemma read_and_filled_again (nh : NodeHandle) (g : Globals) :
  Forall (fun x => present nh x = true) required_fields ->
  read_and_filled nh (read_and_filled nh g) = read_and_filled nh g.
Proof.
  intros Hall.
  destruct (present_all_values nh Hall)
    as (hv & gn & th & x & ip & rp & H1 & H2 & H3 & H4 & H5 & H6).
  unfold read_and_filled, stored, required_fields.
  cbn [fold_left store key_of].
  rewrite H1, H2, H3, H4, H5, H6. destruct g. cbv. reflexivity.
Qed.

Lemma resolved_again (nh : NodeHandle) (g : Globals) c ci :
  Forall (fun x => present nh x = true) required_fields ->
  resolved nh (resolved nh g c ci) c ci = resolved nh g c ci.
Proof.
  intros Hall.
  destruct (present_all_values nh Hall)
    as (hv & gn & th & x & ip & rp & H1 & H2 & H3 & H4 & H5 & H6).
  unfold resolved, read_and_filled, stored, required_fields.
  cbn [fold_left store key_of].
  rewrite H1, H2, H3, H4, H5, H6. destruct g. cbv. reflexivity.
Qed.

Lemma maps_of_read_and_filled (nh : NodeHandle) (g : Globals) :
  shape_map (read_and_filled nh g) = shape_table
  /\ input_map (read_and_filled nh g) = input_table.
Proof. split; reflexivity. Qed.

Lemma maps_of_common_params (nh : NodeHandle) (g : Globals) :
  shape_map (common_params nh g) = shape_map g
  /\ input_map (common_params nh g) = input_map g.
Proof. split; reflexivity. Qed.

Lemma maps_of_resolved (nh : NodeHandle) (g : Globals) c ci :
  shape_map (resolved nh g c ci) = shape_table
  /\ input_map (resolved nh g c ci) = input_table.
Proof. split; reflexivity. Qed.

Lemma maps_of_stored (nh : NodeHandle) (fs : list Field) (g : Globals) :
  shape_map (stored nh fs g) = shape_map g
  /\ input_map (stored nh fs g) = input_map g.
Proof.
  unfold stored.
  assert (H : forall g0, shape_map (fold_left (store nh) fs g0) = shape_map g0
                         /\ input_map (fold_left (store nh) fs g0)
                            = input_map g0).
  { induction fs as [|f fs IH]; intros g0; [split; reflexivity|].
    simpl. destruct (IH (store nh g0 f)) as [-> ->].
    destruct f; split; reflexivity. }
  destruct (H (set_load_prev false g)) as [-> ->]. split; reflexivity.
Qed.

Lemma maps_at_rest_same (g g' : Globals) :
  shape_map g' = shape_map g -> input_map g' = input_map g ->
  maps_at_rest g -> maps_at_rest g'.
Proof. unfold maps_at_rest. intros -> ->. trivial. Qed.

(** X3: [get_params] can be run again: from maps that are empty or filled,
    a second run on the same parameter server, started from the variables
    the first run left, returns the same value, does the same things and
    leaves the variables as they are; the maps are again empty or filled. *)
Theorem get_params_rerun_stable (nh : NodeHandle) (g : Globals) :
  maps_at_rest g ->
  let '(r, g', t) := get_params nh g in
  get_params nh g' = (r, g', t) /\ maps_at_rest g'.
Proof.
  intros Hrest.
  destruct (get_params_cases nh g Hrest)
    as [[Hlp ->]
       |[(Hlp & pre & f & post & Hsplit & Hpre & Hf & ->)
        |(Hlp & Hall & [[E1 ->]|[(k & c & E1 & E2 & ->)|(k & c & k' & ci & E1 & E2 & ->)]])]].
  - split.
    + rewrite (get_params_load_prev nh _ Hlp).
      now rewrite common_params_again.
    + apply (maps_at_rest_same g); trivial; reflexivity.
  - split.
    + rewrite (get_params_first_missing nh _ pre post f Hlp Hsplit Hpre Hf).
      now rewrite (stored_again nh g pre (f :: post) Hsplit Hpre).
    + destruct (maps_of_stored nh pre g) as [Hs Hi].
      now apply (maps_at_rest_same g).
  - assert (Hrest' : maps_at_rest (read_and_filled nh g))
      by (right; apply maps_of_read_and_filled).
    split; [|exact Hrest'].
    rewrite (get_params_explicit_at_rest nh _ Hrest' Hlp Hall).
    rewrite (read_and_filled_again nh g Hall), E1. reflexivity.
  - assert (Hrest' : maps_at_rest (read_and_filled nh g))
      by (right; apply maps_of_read_and_filled).
    split; [|exact Hrest'].
    rewrite (get_params_explicit_at_rest nh _ Hrest' Hlp Hall).
    rewrite (read_and_filled_again nh g Hall), E1, E2. reflexivity.
  - assert (Hrest' : maps_at_rest (resolved nh g c ci))
      by (right; apply maps_of_resolved).
    split; [|exact Hrest'].
    rewrite (get_params_explicit_at_rest nh _ Hrest' Hlp Hall).
    destruct (present_all_values nh Hall)
      as (hv & gn & th & x & ip & rp & _ & _ & _ & Hx & Hip & _).
    destruct (read_and_filled_raw nh g x ip Hx Hip) as [Hx1 Hip1].
    destruct (read_and_filled_raw nh (resolved nh g c ci) x ip Hx Hip)
      as [-> ->].
    rewrite Hx1 in E1. rewrite Hip1 in E2. rewrite E1, E2.
    now rewrite (resolved_again nh g c ci Hall).
Qed.

(** X4: started with empty maps, [get_params] leaves them empty when
    [load_previous_settings] is on or a required field is missing, and
    otherwise leaves exactly the eight shaping times and the five input
    labels of [fill_maps]: the look-ups at lines 223-224 insert nothing,
    whatever shaping time and label the server holds. *)
Theorem tables_after_get_params (nh : NodeHandle) (g : Globals) :
  shape_map g = [] -> input_map g = [] ->
  let '(_, g', _) := get_params nh g in
  (shape_map g', input_map g')
  = if (negb (value_or (lookup_bool nh "load_previous_settings") false)
        && forallb (present nh) required_fields)%bool
    then (shape_table, input_table)
    else ([], []).
Proof.
  intros Hsm Him.
  assert (Hrest : maps_at_rest g) by (left; now split).
  destruct (get_params_cases nh g Hrest)
    as [[Hlp ->]
       |[(Hlp & pre & f & post & Hsplit & Hpre & Hf & ->)
        |(Hlp & Hall & [[E1 ->]|[(k & c & E1 & E2 & ->)|(k & c & k' & ci & E1 & E2 & ->)]])]].
  - rewrite Hlp. cbn [value_or negb andb].
    destruct (maps_of_common_params nh (set_load_prev true g)) as [-> ->].
    cbn [shape_map input_map set_load_prev]. now rewrite Hsm, Him.
  - rewrite Hlp. cbn [negb andb].
    assert (Hnot : forallb (present nh) required_fields = false).
    { rewrite Hsplit, forallb_app. simpl. rewrite Hf.
      now rewrite Bool.andb_false_r. }
    rewrite Hnot. destruct (maps_of_stored nh pre g) as [-> ->].
    now rewrite Hsm, Him.
  - rewrite Hlp, (proj2 (forallb_forall _ _) (proj1 (Forall_forall _ _) Hall)).
    reflexivity.
  - rewrite Hlp, (proj2 (forallb_forall _ _) (proj1 (Forall_forall _ _) Hall)).
    reflexivity.
  - rewrite Hlp, (proj2 (forallb_forall _ _) (proj1 (Forall_forall _ _) Hall)).
    reflexivity.
Qed.

Lemma common_of_common_params (nh : NodeHandle) (g : Globals) :
  (port (common_params nh g), baud (common_params nh g),
   GMmode (common_params nh g), imeadiate (common_params nh g),
   detector_frame (common_params nh g))
  = (value_or (lookup_string nh "port") "/dev/ttyUSB0",
     value_or (lookup_int nh "baud") 115200,
     value_or (lookup_bool nh "use_GM_mode") false,
     value_or (lookup_bool nh "imeadiate_mode") false,
     value_or (lookup_string nh "detector_frame") "rad_link").
Proof. reflexivity. Qed.

Lemma common_of_stored (nh : NodeHandle) (fs : list Field) (g : Globals) :
  (port (stored nh fs g), baud (stored nh fs g), GMmode (stored nh fs g),
   imeadiate (stored nh fs g), detector_frame (stored nh fs g))
  = (port g, baud g, GMmode g, imeadiate g, detector_frame g).
Proof.
  unfold stored.
  assert (H : forall g0,
             (port (fold_left (store nh) fs g0),
              baud (fold_left (store nh) fs g0),
              GMmode (fold_left (store nh) fs g0),
              imeadiate (fold_left (store nh) fs g0),
              detector_frame (fold_left (store nh) fs g0))
             = (port g0, baud g0, GMmode g0, imeadiate g0,
                detector_frame g0)).
  { induction fs as [|f fs IH]; intros g0; [reflexivity|].
    simpl. rewrite IH. destruct f; reflexivity. }
  rewrite H. reflexivity.
Qed.

Lemma common_of_tables (g : Globals) sm im :
  (port (set_input_map im (set_shape_map sm g)),
   baud (set_input_map im (set_shape_map sm g)),
   GMmode (set_input_map im (set_shape_map sm g)),
   imeadiate (set_input_map im (set_shape_map sm g)),
   detector_frame (set_input_map im (set_shape_map sm g)))
  = (port g, baud g, GMmode g, imeadiate g, detector_frame g).
Proof. reflexivity. Qed.

Lemma common_of_read_and_filled (nh : NodeHandle) (g : Globals) :
  (port (read_and_filled nh g), baud (read_and_filled nh g),
   GMmode (read_and_filled nh g), imeadiate (read_and_filled nh g),
   detector_frame (read_and_filled nh g))
  = (port g, baud g, GMmode g, imeadiate g, detector_frame g).
Proof.
  unfold read_and_filled. rewrite common_of_tables. apply common_of_stored.
Qed.

Lemma get_params_common (nh : NodeHandle) (g : Globals) :
  maps_at_rest g ->
  let '(r, g', _) := get_params nh g in
  (port g', baud g', GMmode g', imeadiate g', detector_frame g')
  = if r =? 1
    then (value_or (lookup_string nh "port") "/dev/ttyUSB0",
          value_or (lookup_int nh "baud") 115200,
          value_or (lookup_bool nh "use_GM_mode") false,
          value_or (lookup_bool nh "imeadiate_mode") false,
          value_or (lookup_string nh "detector_frame") "rad_link")
    else (port g, baud g, GMmode g, imeadiate g, detector_frame g).
Proof.
  intros Hrest.
  destruct (get_params_cases nh g Hrest)
    as [[Hlp ->]
       |[(Hlp & pre & f & post & Hsplit & Hpre & Hf & ->)
        |(Hlp & Hall & [[E1 ->]|[(k & c & E1 & E2 & ->)|(k & c & k' & ci & E1 & E2 & ->)]])]].
  - apply common_of_common_params.
  - apply common_of_stored.
  - apply common_of_read_and_filled.
  - apply common_of_read_and_filled.
  - apply common_of_common_params.
Qed.

(** X5: port, baud, use_GM_mode, imeadiate_mode and detector_frame are
    resolved on the runs of [get_params] that return 1, and only on them:
    there each variable holds the server's value, or its default when the
    parameter is absent; on a run that returns -1 lines 227-232 are not
    reached and the five variables keep what they held. *)
Theorem common_parameters_resolved_on_success_only
    (nh : NodeHandle) (g : Globals) :
  maps_at_rest g ->
  let '(r, g', _) := get_params nh g in
  (port g', baud g', GMmode g', imeadiate g', detector_frame g')
  = if r =? 1
    then (value_or (lookup_string nh "port") "/dev/ttyUSB0",
          value_or (lookup_int nh "baud") 115200,
          value_or (lookup_bool nh "use_GM_mode") false,
          value_or (lookup_bool nh "imeadiate_mode") false,
          value_or (lookup_string nh "detector_frame") "rad_link")
    else (port g, baud g, GMmode g, imeadiate g, detector_frame g).
Proof. exact (get_params_common nh g). Qed.

(** ** What a run leaves in the variables of the required fields *)


Lemma kept_raw (g g1 g2 : Globals) (l : list Field) :
  raw_of g2 = raw_of g1 ->
  Forall (kept g g1) l -> Forall (kept g g2) l.
Proof.
  unfold raw_of. intros Hraw HF. injection Hraw as H1 H2 H3 H4 H5 H6.
  eapply Forall_impl; [|exact HF].
  intros f Hf. destruct f; unfold kept in *; congruence.
Qed.







(** ** Further properties of [main] *)

Lemma get_params_common_on_success (nh : NodeHandle) (g g' : Globals)
    (t : list Event) :
  maps_at_rest g -> get_params nh g = (1, g', t) ->
  port g' = value_or (lookup_string nh "port") "/dev/ttyUSB0"
  /\ baud g' = value_or (lookup_int nh "baud") 115200
  /\ GMmode g' = value_or (lookup_bool nh "use_GM_mode") false
  /\ imeadiate g' = value_or (lookup_bool nh "imeadiate_mode") false
  /\ detector_frame g'
     = value_or (lookup_string nh "detector_frame") "rad_link".
Proof.
  intros Hrest Hgp. pose proof (get_params_common nh g Hrest) as H.
  rewrite Hgp in H. simpl in H. injection H as -> -> -> -> ->.
  repeat split.
Qed.

(** X6: when [get_params] has succeeded and [connected()] answers false,
    [main] returns -1 at once: the interface was built on the port and baud
    of the parameter server (or "/dev/ttyUSB0" and 115200), [connect()] and
    [connected()] were called, and nothing else is done: nothing is
    advertised, no setting is applied, voltage is not touched. *)
Theorem connection_failure_ends_main (nh : NodeHandle) (g g' : Globals)
    (t : list Event) :
  maps_at_rest g -> get_params nh g = (1, g', t) ->
  main nh false g
  = (-1, g',
     (t ++ [NewInterface (value_or (lookup_string nh "port") "/dev/ttyUSB0")
              (value_or (lookup_int nh "baud") 115200);
            Connect; Connected false])%list).
Proof.
  intros Hrest Hgp.
  destruct (get_params_common_on_success nh g g' t Hrest Hgp)
    as (Hp & Hb & _).
  rewrite (main_after_get_params nh false g g' 1 t Hgp).
  unfold host_trace. now rewrite Hp, Hb.
Qed.

(** X7: when [get_params] has succeeded and the link is up, the whole run
    of [main] is fixed by the parameter server: the topic is "counts" or
    "spectra" by use_GM_mode, the three services and the stopped timer
    follow, then the settings, then, only if imeadiate_mode is set, the
    start call of the mode and the start of the timer; after [ros::spin()]
    the run always ends with stopAcquire() and setVoltage(0), in counting
    mode too, and the exit status is 0. *)
Theorem main_run_from_parameters (nh : NodeHandle) (g g' : Globals)
    (t : list Event) :
  maps_at_rest g -> get_params nh g = (1, g', t) ->
  let gm := value_or (lookup_bool nh "use_GM_mode") false in
  let im := value_or (lookup_bool nh "imeadiate_mode") false in
  main nh true g
  = (0, g',
     (t ++ [NewInterface (value_or (lookup_string nh "port") "/dev/ttyUSB0")
              (value_or (lookup_int nh "baud") 115200);
            Connect; Connected true; RosInfo "URSA Connected";
            Advertise (if gm then "counts" else "spectra");
            AdvertiseService "startAcquire"; AdvertiseService "stopAcquire";
            AdvertiseService "clearSpectra"; CreateTimer]
        ++ apply_settings g'
        ++ (if im then [if gm then StartGM else StartAcquire; TimerStart]
            else [])
        ++ [Spin; StopAcquire; SetVoltage 0])%list).
Proof.
  intros Hrest Hgp gm im.
  destruct (get_params_common_on_success nh g g' t Hrest Hgp)
    as (Hp & Hb & Hgm & Him & _).
  rewrite (main_after_get_params nh true g g' 1 t Hgp).
  unfold host_trace, after_connect, start_acquisition.
  rewrite Hp, Hb, Hgm, Him. reflexivity.
Qed.

(** ** The callbacks *)

Lemma timer_started_app (b : bool) (t1 t2 : list Action) :
  timer_started b (t1 ++ t2) = timer_started (timer_started b t1) t2.
Proof.
  revert b. induction t1 as [|a t1 IH]; intros b; [reflexivity|].
  destruct a as [[]| | | | | | | | |]; simpl; apply IH.
Qed.

Lemma timer_started_serve (g : Globals) (r : Request) (b : bool) :
  timer_started b (serve g r) = last_command b [r].
Proof.
  destruct r; simpl; unfold startAcquireCB, stopAcquireCB, clearSpectraCB,
    timerCallback, cb_bind, look, act, ask, done; simpl;
    destruct (GMmode g); reflexivity.
Qed.

Lemma timer_started_serve_all (g : Globals) (rs : list Request) (b : bool) :
  timer_started b (serve_all g rs) = last_command b rs.
Proof.
  revert b. induction rs as [|r rs IH]; intros b; [reflexivity|].
  unfold serve_all in *. simpl flat_map.
  rewrite timer_started_app, timer_started_serve, IH.
  destruct r; reflexivity.
Qed.

Lemma timer_started_reads (b : bool) (ks : list string) :
  timer_started b (List.map Host (List.map GetParam ks)) = b.
Proof. induction ks; simpl; trivial. Qed.

Lemma until_spin_reads (ks : list string) (rest : list Event) :
  until_spin (List.map GetParam ks ++ rest)
  = (List.map GetParam ks ++ until_spin rest)%list.
Proof. induction ks; simpl; [reflexivity | now rewrite IHks]. Qed.

Lemma timer_started_host_trace (g : Globals) :
  timer_started false (List.map Host (until_spin (host_trace true g)))
  = imeadiate g.
Proof.
  unfold host_trace, after_connect, apply_settings, start_acquisition.
  destruct (load_prev g), (imeadiate g), (GMmode g); reflexivity.
Qed.

Lemma timer_started_startup (nh : NodeHandle) (g : Globals) :
  let '(_, g', t) := main nh true g in
  timer_started false (List.map Host (until_spin t)) = imeadiate g'.
Proof.
  pose proof (get_params_trace_shape_aux nh g) as Hshape.
  destruct (get_params nh g) as [[r g'] t] eqn:Hgp.
  rewrite (main_after_get_params nh true g g' r t Hgp).
  destruct Hshape as (ks & _ & [[_ ->]|(_ & msg & _ & ->)]).
  - rewrite until_spin_reads, map_app, timer_started_app, timer_started_reads.
    apply timer_started_host_trace.
  - rewrite <- app_assoc, until_spin_reads. simpl app.
    rewrite map_app, timer_started_app, timer_started_reads.
    apply timer_started_host_trace.
Qed.

(** X8: whether the timer runs follows the last command: after the
    start-up of [main] with the link up and any sequence of service calls
    and ticks, the timer is started exactly when the last start or stop
    call was a start, or, if there was none, when imeadiate_mode started it;
    clearing the spectra and ticks leave it as it is. *)
Theorem timer_follows_last_command (nh : NodeHandle) (g : Globals)
    (rs : list Request) :
  let '(_, g', t) := main nh true g in
  timer_started false (List.map Host (until_spin t) ++ serve_all g' rs)
  = last_command (imeadiate g') rs.
Proof.
  pose proof (timer_started_startup nh g) as H.
  destruct (main nh true g) as [[r g'] t].
  now rewrite timer_started_app, H, timer_started_serve_all.
Qed.

Lemma published_app (t1 t2 : list Action) :
  published (t1 ++ t2) = (published t1 ++ published t2)%list.
Proof. apply flat_map_app. Qed.

Lemma published_serve_all (g : Globals) (rs : list Request) :
  published (serve_all g rs) = List.map (message_of_tick g) (ticks rs).
Proof.
  induction rs as [|r rs IH]; [reflexivity|].
  unfold serve_all in *. simpl flat_map. rewrite published_app, IH.
  destruct r; simpl;
    unfold startAcquireCB, stopAcquireCB, clearSpectraCB, timerCallback,
      message_of_tick, cb_bind, look, act, ask, done; simpl;
    destruct (GMmode g); reflexivity.
Qed.

Lemma advertised_reads (ks : list string) :
  advertised (List.map GetParam ks) = [].
Proof. induction ks; simpl; trivial. Qed.

Lemma advertised_app (t1 t2 : list Event) :
  advertised (t1 ++ t2) = (advertised t1 ++ advertised t2)%list.
Proof. apply flat_map_app. Qed.

(** X9: every tick publishes exactly one message, and service calls
    publish none: the messages are, in order, one per tick, stamped with the
    time of the tick, framed with [detector_frame], and carrying the counts
    or the bins the driver gave; each is of the type of the one topic [main]
    advertised. *)
Theorem ticks_publish_on_the_advertised_topic (nh : NodeHandle)
    (g : Globals) (rs : list Request) :
  let '(_, g', t) := main nh true g in
  published (serve_all g' rs) = List.map (message_of_tick g') (ticks rs)
  /\ exists topic,
       advertised t = [topic]
       /\ Forall (fun m => topic_of m = topic
                           /\ frame_id (header_of m) = detector_frame g')
            (published (serve_all g' rs)).
Proof.
  pose proof (get_params_trace_shape_aux nh g) as Hshape.
  destruct (get_params nh g) as [[r g'] t] eqn:Hgp.
  rewrite (main_after_get_params nh true g g' r t Hgp).
  split; [apply published_serve_all|].
  exists (if GMmode g' then "counts" else "spectra"). split.
  - rewrite advertised_app.
    assert (Ht : advertised t = []).
    { destruct Hshape as (ks & _ & [[_ ->]|(_ & msg & _ & ->)]).
      - apply advertised_reads.
      - rewrite advertised_app, advertised_reads. reflexivity. }
    rewrite Ht.
    unfold host_trace, after_connect, apply_settings, start_acquisition.
    destruct (load_prev g'), (imeadiate g'), (GMmode g'); reflexivity.
  - rewrite published_serve_all. apply Forall_forall.
    intros m Hm. apply in_map_iff in Hm. destruct Hm as (w & <- & _).
    unfold message_of_tick. destruct (GMmode g'); split; reflexivity.
Qed.

(** X10: the callbacks keep to the mode of the node and to their job: in
    counting mode no call of spectral acquisition (startAcquire,
    stopAcquire, read, getSpectra) is made, in spectral mode no call of
    counting (startGM, stopGM, requestCounts), and in neither is a setting
    of the device changed (no setter, no setVoltage, no loadPrevSettings). *)
Theorem callbacks_keep_to_the_mode (g : Globals) (rs : list Request) :
  Forall (fun a => (if GMmode g then is_spectral_call a else is_gm_call a)
                   = false
                   /\ changes_settings a = false)
    (serve_all g rs).
Proof.
  induction rs as [|r rs IH]; [constructor|].
  unfold serve_all in *. simpl flat_map. apply Forall_app. split; [|exact IH].
  destruct r; simpl;
    unfold startAcquireCB, stopAcquireCB, clearSpectraCB, timerCallback,
      cb_bind, look, act, ask, done; simpl;
    destruct (GMmode g); repeat constructor.
Qed.

End Node.

(** ** The properties at concrete parameter servers

    The runs start from the variables as static initialisation leaves them,
    the two zero-initialised enumeration variables holding [TIME0_25uS] and
    [INPUT1NEG]. *)

Lemma required_present_explicit (st : double) (ip : string) :
  Forall (fun f => present (nh_explicit st ip) f = true) required_fields.
Proof. repeat constructor. Qed.

Lemma first_missing_field_reported_witness :
  exists g',
    get_params ursa.TIME0_25uS ursa.INPUT1NEG nh_two_fields
      (globals_init ursa.TIME0_25uS ursa.INPUT1NEG)
    = (-1, g',
       [GetParam "load_previous_settings"; GetParam "high_voltage";
        GetParam "gain"; GetParam "threshold";
        RosError "Threshold must be set."])
    /\ HV g' = 500 /\ threshold g' = 0.
Proof.
  destruct (proj1 (first_missing_field_reported ursa.TIME0_25uS ursa.INPUT1NEG
                     nh_two_fields
                     (globals_init ursa.TIME0_25uS ursa.INPUT1NEG) eq_refl)
              [HighVoltage; Gain] Threshold [ShapingTime; InputPolarity; Ramp]
              eq_refl
              ltac:(repeat constructor) eq_refl) as [H _].
  eexists. split; [exact H|]. split; reflexivity.
Defined.



Lemma shaping_time_exact_match_witness :
  (exists g',
      get_params ursa.TIME0_25uS ursa.INPUT1NEG
        (nh_explicit d6 "shaped_input")
        (globals_init ursa.TIME0_25uS ursa.INPUT1NEG)
      = (1, g', (explicit_reads ++ common_reads)%list)
      /\ shaping_time g' = d6 /\ real_shaping_time g' = ursa.TIME6uS)
  /\ (exists g',
         get_params ursa.TIME0_25uS ursa.INPUT1NEG
           (nh_explicit d1_next "shaped_input")
           (globals_init ursa.TIME0_25uS ursa.INPUT1NEG)
         = (-1, g', (explicit_reads ++ [RosError msg_invalid_shaping])%list)
         /\ errors (explicit_reads ++ [RosError msg_invalid_shaping])
            = [msg_invalid_shaping]
         /\ real_shaping_time g' = ursa.TIME0_25uS).
Proof.
  split.
  - apply (proj1 (shaping_time_exact_match ursa.TIME0_25uS ursa.INPUT1NEG
                    (nh_explicit d6 "shaped_input")
                    (globals_init ursa.TIME0_25uS ursa.INPUT1NEG)
                    d6 "shaped_input" eq_refl eq_refl eq_refl
                    (required_present_explicit _ _) eq_refl eq_refl)
             ursa.TIME6uS); simpl; tauto.
  - apply (proj2 (shaping_time_exact_match ursa.TIME0_25uS ursa.INPUT1NEG
                    (nh_explicit d1_next "shaped_input")
                    (globals_init ursa.TIME0_25uS ursa.INPUT1NEG)
                    d1_next "shaped_input" eq_refl eq_refl eq_refl
                    (required_present_explicit _ _) eq_refl eq_refl));
      [reflexivity|].
    intros k Hk. simpl in Hk.
    repeat (destruct Hk as [<-|Hk]; [reflexivity|]). contradiction.
Defined.

Lemma input_polarity_exact_match_witness :
  (exists g',
      get_params ursa.TIME0_25uS ursa.INPUT1NEG
        (nh_explicit d2 "input2_negative")
        (globals_init ursa.TIME0_25uS ursa.INPUT1NEG)
      = (1, g', (explicit_reads ++ common_reads)%list)
      /\ input_polarity g' = "input2_negative"
      /\ real_input g' = ursa.INPUT2NEG)
  /\ (exists g',
         get_params ursa.TIME0_25uS ursa.INPUT1NEG
           (nh_explicit d2 "Input1_Negative")
           (globals_init ursa.TIME0_25uS ursa.INPUT1NEG)
         = (-1, g', (explicit_reads ++ [RosError msg_invalid_input])%list)
         /\ errors (explicit_reads ++ [RosError msg_invalid_input])
            = [msg_invalid_input]
         /\ real_input g' = ursa.INPUT1NEG).
Proof.
  split.
  - apply (proj1 (input_polarity_exact_match ursa.TIME0_25uS ursa.INPUT1NEG
                    (nh_explicit d2 "input2_negative")
                    (globals_init ursa.TIME0_25uS ursa.INPUT1NEG)
                    d2 ursa.TIME2uS "input2_negative"
                    eq_refl eq_refl eq_refl
                    (required_present_explicit _ _) eq_refl
                    ltac:(simpl; tauto) eq_refl)
             ursa.INPUT2NEG); simpl; tauto.
  - apply (proj2 (input_polarity_exact_match ursa.TIME0_25uS ursa.INPUT1NEG
                    (nh_explicit d2 "Input1_Negative")
                    (globals_init ursa.TIME0_25uS ursa.INPUT1NEG)
                    d2 ursa.TIME2uS "Input1_Negative"
                    eq_refl eq_refl eq_refl
                    (required_present_explicit _ _) eq_refl
                    ltac:(simpl; tauto) eq_refl)).
    simpl. intros H.
    repeat (destruct H as [H|H]; [discriminate H|]). contradiction.
Defined.

Lemma input2_positive_shares_code_witness :
  exists g1 g2 t,
    get_params ursa.TIME0_25uS ursa.INPUT1NEG
      (nh_explicit d1 "input1_positive")
      (globals_init ursa.TIME0_25uS ursa.INPUT1NEG) = (1, g1, t)
    /\ get_params ursa.TIME0_25uS ursa.INPUT1NEG
         (nh_explicit d1 "input2_positive")
         (globals_init ursa.TIME0_25uS ursa.INPUT1NEG) = (1, g2, t)
    /\ real_input g1 = ursa.INPUT1POS
    /\ real_input g2 = ursa.INPUT1POS
    /\ g1 = set_input_polarity "input1_positive" g2.
Proof.
  apply (input2_positive_shares_code ursa.TIME0_25uS ursa.INPUT1NEG
           (nh_explicit d1 "input1_positive")
           (nh_explicit d1 "input2_positive")
           (globals_init ursa.TIME0_25uS ursa.INPUT1NEG) d1 ursa.TIME1uS);
    try reflexivity.
  - intros k Hk. simpl.
    destruct (String.eqb_spec k "input_and_polarity");
      [contradiction | reflexivity].
  - apply required_present_explicit.
  - simpl. tauto.
Defined.

Lemma load_previous_settings_skips_validation_witness :
  get_params ursa.TIME0_25uS ursa.INPUT1NEG nh_load_prev
    (globals_init ursa.TIME0_25uS ursa.INPUT1NEG)
  = (1,
     common_params nh_load_prev
       (set_load_prev true (globals_init ursa.TIME0_25uS ursa.INPUT1NEG)),
     GetParam "load_previous_settings" :: common_reads).
Proof.
  exact (proj1 (load_previous_settings_skips_validation
                  ursa.TIME0_25uS ursa.INPUT1NEG nh_load_prev
                  (globals_init ursa.TIME0_25uS ursa.INPUT1NEG) eq_refl)).
Defined.

Lemma defaults_when_absent_witness :
  exists g' t,
    get_params ursa.TIME0_25uS ursa.INPUT1NEG nh_load_prev
      (globals_init ursa.TIME0_25uS ursa.INPUT1NEG) = (1, g', t)
    /\ errors t = []
    /\ port g' = "/dev/ttyUSB0"
    /\ baud g' = 115200
    /\ GMmode g' = false
    /\ imeadiate g' = false
    /\ detector_frame g' = "rad_link"
    /\ load_prev g' = true.
Proof.
  apply (defaults_when_absent ursa.TIME0_25uS ursa.INPUT1NEG nh_load_prev
           (globals_init ursa.TIME0_25uS ursa.INPUT1NEG));
    reflexivity.
Defined.

Lemma settings_applied_in_order_witness :
  exists g' t rest,
    get_params ursa.TIME0_25uS ursa.INPUT1NEG
      (nh_explicit d6 "shaped_input")
      (globals_init ursa.TIME0_25uS ursa.INPUT1NEG) = (1, g', t)
    /\ main ursa.TIME0_25uS ursa.INPUT1NEG (nh_explicit d6 "shaped_input")
         true (globals_init ursa.TIME0_25uS ursa.INPUT1NEG)
       = (0, g', (t ++ rest)%list)
    /\ settings_calls rest
       = [SetGain d2; SetThresholdOffset 10; SetShapingTime ursa.TIME6uS;
          SetInput ursa.INPUTXPOS; SetRamp 6; SetVoltage 500].
Proof.
  destruct (get_params ursa.TIME0_25uS ursa.INPUT1NEG
              (nh_explicit d6 "shaped_input")
              (globals_init ursa.TIME0_25uS ursa.INPUT1NEG))
    as [[r g'] t] eqn:E.
  assert (Hr : r = 1) by (vm_compute in E; congruence).
  subst r.
  destruct (settings_applied_in_order ursa.TIME0_25uS ursa.INPUT1NEG
              _ _ _ _ E) as (rest & Hmain & Hoff & _).
  exists g', t, rest. split; [reflexivity|]. split; [exact Hmain|].
  rewrite Hoff; vm_compute in E; injection E as <- _; reflexivity.
Defined.

(** ** The further properties at concrete parameter servers *)

Lemma get_params_reads_only_its_parameters_witness :
  get_params ursa.TIME0_25uS ursa.INPUT1NEG nh_load_prev
    (globals_init ursa.TIME0_25uS ursa.INPUT1NEG)
  = get_params ursa.TIME0_25uS ursa.INPUT1NEG
      (with_string "frame" "base_link" (with_int "rate" 5 nh_load_prev))
      (globals_init ursa.TIME0_25uS ursa.INPUT1NEG).
Proof.
  apply (get_params_reads_only_its_parameters ursa.TIME0_25uS ursa.INPUT1NEG).
  intros k Hk. simpl in Hk.
  repeat (destruct Hk as [<-|Hk]; [repeat split|]). contradiction.
Defined.

Lemma get_params_rerun_stable_witness :
  let '(r, g', t) :=
    get_params ursa.TIME0_25uS ursa.INPUT1NEG (nh_explicit d6 "shaped_input")
      (globals_init ursa.TIME0_25uS ursa.INPUT1NEG) in
  get_params ursa.TIME0_25uS ursa.INPUT1NEG (nh_explicit d6 "shaped_input") g'
  = (r, g', t)
  /\ maps_at_rest g'.
Proof.
  apply (get_params_rerun_stable ursa.TIME0_25uS ursa.INPUT1NEG
           (nh_explicit d6 "shaped_input")
           (globals_init ursa.TIME0_25uS ursa.INPUT1NEG)).
  left. split; reflexivity.
Defined.

Lemma tables_after_get_params_witness :
  let '(_, g', _) :=
    get_params ursa.TIME0_25uS ursa.INPUT1NEG
      (nh_explicit d3 "input3_negative")
      (globals_init ursa.TIME0_25uS ursa.INPUT1NEG) in
  (shape_map g', input_map g') = (shape_table, input_table).
Proof.
  exact (tables_after_get_params ursa.TIME0_25uS ursa.INPUT1NEG
           (nh_explicit d3 "input3_negative")
           (globals_init ursa.TIME0_25uS ursa.INPUT1NEG) eq_refl eq_refl).
Defined.

Lemma common_parameters_resolved_on_success_only_witness :
  let '(r, g', _) :=
    get_params ursa.TIME0_25uS ursa.INPUT1NEG
      (with_string "port" "/dev/ttyACM0" nh_high_voltage_only)
      (globals_init ursa.TIME0_25uS ursa.INPUT1NEG) in
  (port g', baud g', GMmode g', imeadiate g', detector_frame g')
  = if r =? 1
    then ("/dev/ttyACM0", 115200, false, false, "rad_link")
    else ("", 0, false, false, "").
Proof.
  exact (common_parameters_resolved_on_success_only
           ursa.TIME0_25uS ursa.INPUT1NEG
           (with_string "port" "/dev/ttyACM0" nh_high_voltage_only)
           (globals_init ursa.TIME0_25uS ursa.INPUT1NEG)
           (or_introl (conj eq_refl eq_refl))).
Defined.

Lemma connection_failure_ends_main_witness :
  main ursa.TIME0_25uS ursa.INPUT1NEG nh_load_prev false
    (globals_init ursa.TIME0_25uS ursa.INPUT1NEG)
  = (-1,
     common_params nh_load_prev
       (set_load_prev true (globals_init ursa.TIME0_25uS ursa.INPUT1NEG)),
     (GetParam "load_previous_settings" :: common_reads
      ++ [NewInterface "/dev/ttyUSB0" 115200; Connect; Connected false])%list).
Proof.
  apply (connection_failure_ends_main ursa.TIME0_25uS ursa.INPUT1NEG
           nh_load_prev (globals_init ursa.TIME0_25uS ursa.INPUT1NEG)
           (common_params nh_load_prev
              (set_load_prev true
                 (globals_init ursa.TIME0_25uS ursa.INPUT1NEG)))
           (GetParam "load_previous_settings" :: common_reads)).
  - left. split; reflexivity.
  - reflexivity.
Defined.

Lemma main_run_from_parameters_witness :
  main ursa.TIME0_25uS ursa.INPUT1NEG
    (with_bool "use_GM_mode" true
       (with_bool "imeadiate_mode" true nh_load_prev))
    true (globals_init ursa.TIME0_25uS ursa.INPUT1NEG)
  = (0,
     common_params
       (with_bool "use_GM_mode" true
          (with_bool "imeadiate_mode" true nh_load_prev))
       (set_load_prev true (globals_init ursa.TIME0_25uS ursa.INPUT1NEG)),
     (GetParam "load_previous_settings" :: common_reads
      ++ [NewInterface "/dev/ttyUSB0" 115200; Connect; Connected true;
          RosInfo "URSA Connected"; Advertise "counts";
          AdvertiseService "startAcquire"; AdvertiseService "stopAcquire";
          AdvertiseService "clearSpectra"; CreateTimer;
          LoadPrevSettings; StartGM; TimerStart;
          Spin; StopAcquire; SetVoltage 0])%list).
Proof.
  apply (main_run_from_parameters ursa.TIME0_25uS ursa.INPUT1NEG
           (with_bool "use_GM_mode" true
              (with_bool "imeadiate_mode" true nh_load_prev))
           (globals_init ursa.TIME0_25uS ursa.INPUT1NEG)
           (common_params
              (with_bool "use_GM_mode" true
                 (with_bool "imeadiate_mode" true nh_load_prev))
              (set_load_prev true
                 (globals_init ursa.TIME0_25uS ursa.INPUT1NEG)))
           (GetParam "load_previous_settings" :: common_reads)).
  - left. split; reflexivity.
  - reflexivity.
Defined.
